(** * Recipe catalog: a shallow embedding of [main.py] and its properties

    The program is a FastAPI application over one SQLAlchemy table
    ([recipes], stored in SQLite).  The embedding has four layers:

    - [PyStr]: the Python string operations the handlers use
      ([str.split], [str.strip]) and the SQL text operators they issue
      ([lower], [LIKE]);
    - [Orm]: the table, the session (pending objects, statements issued),
      a state-and-exception monad for the session calls, and the two ways
      a SELECT fails (an integer the driver cannot bind, a pattern the
      engine refuses);
    - [Binding]: what the framework does with [Form(...)] parameters before
      a handler body runs, under either behaviour its releases show on a
      required field sent empty;
    - [App]: [seed_database], the six route handlers and the dispatch of a
      request to them.

    A Python [str] is modelled as a [string]; each [ascii] is read as the
    code point of the same number (0..255). *)

From Stdlib Require Import List String Ascii ZArith Bool Arith Lia.
Import ListNotations.
Local Open Scope string_scope.
Local Open Scope list_scope.

(* ===================================================================== *)
(** ** Python strings and SQL text operators *)
(* ===================================================================== *)

Module PyStr.

(** [str.isspace] on one character, for code points below 256: TAB, LF, VT,
    FF, CR, the four separators 0x1C..0x1F, SPACE, NEL (0x85), NBSP (0xA0). *)
Definition isspace (c : ascii) : bool :=
  let n := nat_of_ascii c in
  (Nat.leb 9 n && Nat.leb n 13) || (Nat.leb 28 n && Nat.leb n 32)
  || Nat.eqb n 133 || Nat.eqb n 160.

(** [s.split(sep)] for a one-character separator: never the empty list,
    fragments may be empty. *)
Fixpoint split (sep : ascii) (s : string) : list string :=
  match s with
  | EmptyString => [EmptyString]
  | String c s' =>
      if Ascii.eqb c sep then EmptyString :: split sep s'
      else match split sep s' with
           | h :: t => String c h :: t
           | [] => [String c EmptyString]
           end
  end.

Fixpoint lstrip (s : string) : string :=
  match s with
  | EmptyString => EmptyString
  | String c s' => if isspace c then lstrip s' else s
  end.

Fixpoint rstrip (s : string) : string :=
  match s with
  | EmptyString => EmptyString
  | String c s' =>
      match rstrip s' with
      | EmptyString => if isspace c then EmptyString else String c EmptyString
      | r => String c r
      end
  end.

(** [s.strip()] with no argument. *)
Definition strip (s : string) : string := rstrip (lstrip s).

(** Truth value of a [str]: non-empty. *)
Definition truthy (s : string) : bool :=
  match s with EmptyString => false | _ => true end.

(** [[item.strip() for item in text.split(sep) if item.strip()]] *)
Definition split_strip (sep : ascii) (text : string) : list string :=
  map strip (filter (fun item => truthy (strip item)) (split sep text)).

(** [sep.join(parts)], used to say what [split] computes. *)
Fixpoint join (sep : ascii) (parts : list string) : string :=
  match parts with
  | [] => EmptyString
  | [p] => p
  | p :: rest => p ++ String sep (join sep rest)
  end.

Fixpoint mem (c : ascii) (s : string) : bool :=
  match s with
  | EmptyString => false
  | String d s' => Ascii.eqb c d || mem c s'
  end.

Fixpoint all_space (s : string) : bool :=
  match s with
  | EmptyString => true
  | String c s' => isspace c && all_space s'
  end.

Definition first_char (s : string) : option ascii :=
  match s with EmptyString => None | String c _ => Some c end.

Fixpoint last_char (s : string) : option ascii :=
  match s with
  | EmptyString => None
  | String c EmptyString => Some c
  | String _ s' => last_char s'
  end.

(** No white space at either end. *)
Definition trimmed (s : string) : Prop :=
  (forall c, first_char s = Some c -> isspace c = false) /\
  (forall c, last_char s = Some c -> isspace c = false).

(** [t] is [s] with the white space at its two ends removed. *)
Definition trim_of (s t : string) : Prop :=
  exists l r : string,
    s = (l ++ t ++ r)%string /\ all_space l = true /\ all_space r = true
    /\ trimmed t.

(** Every character of [s] passes the test [p]. *)
Fixpoint every (p : ascii -> bool) (s : string) : bool :=
  match s with
  | EmptyString => true
  | String c s' => p c && every p s'
  end.

(** SQLite's [lower()] and the case folding of its [LIKE]: the 26 ASCII
    letters only. *)
Definition lower_char (c : ascii) : ascii :=
  let n := nat_of_ascii c in
  if Nat.leb 65 n && Nat.leb n 90 then ascii_of_nat (n + 32) else c.

Fixpoint lower (s : string) : string :=
  match s with
  | EmptyString => EmptyString
  | String c s' => String (lower_char c) (lower s')
  end.

Definition percent : ascii := "%"%char.
Definition underscore : ascii := "_"%char.

Definition nul : ascii := "000"%char.

(** SQLite's pattern comparison, no ESCAPE clause, on two texts without
    NUL: [%] stands for any run of characters (also none), [_] for exactly
    one character, any other character for itself up to ASCII case. *)
Fixpoint pattern_compare (pattern : string) : string -> bool :=
  match pattern with
  | EmptyString => fun text => negb (truthy text)
  | String p pattern' =>
      if Ascii.eqb p percent then
        fix any_run (text : string) : bool :=
          pattern_compare pattern' text
          || match text with
             | EmptyString => false
             | String _ text' => any_run text'
             end
      else if Ascii.eqb p underscore then
        fun text => match text with
                    | EmptyString => false
                    | String _ text' => pattern_compare pattern' text'
                    end
      else
        fun text => match text with
                    | EmptyString => false
                    | String c text' =>
                        Ascii.eqb (lower_char p) (lower_char c)
                        && pattern_compare pattern' text'
                    end
  end.

(** A text as the C code of the engine reads it: up to its first NUL. *)
Fixpoint c_string (s : string) : string :=
  match s with
  | EmptyString => EmptyString
  | String c s' => if Ascii.eqb c nul then EmptyString
                   else String c (c_string s')
  end.

(** [text LIKE pattern] in SQLite: the comparison reads the pattern and the
    text as C strings, so each ends at its first NUL. *)
Definition like (pattern text : string) : bool :=
  pattern_compare (c_string pattern) (c_string text).

(** The length in bytes of the UTF-8 encoding, for code points below 256:
    one byte below 128, two from there on. *)
Fixpoint utf8_length (s : string) : Z :=
  match s with
  | EmptyString => 0%Z
  | String c s' =>
      ((if Nat.ltb (nat_of_ascii c) 128 then 1 else 2) + utf8_length s')%Z
  end.

(** SQLite refuses a [LIKE] pattern of more than 50000 bytes ("LIKE or
    GLOB pattern too complex"); the count is of all the bytes bound, NUL or
    not. *)
Definition too_complex (pattern : string) : bool :=
  (50000 <? utf8_length pattern)%Z.

(** [column.ilike(pattern)] as SQLAlchemy renders it for SQLite:
    [lower(column) LIKE lower(pattern)], for a pattern the engine
    accepts. *)
Definition ilike (column pattern : string) : bool :=
  like (lower pattern) (lower column).

(** The query is free of [LIKE] wildcards. *)
Definition literal (q : string) : bool :=
  negb (mem percent q) && negb (mem underscore q).

(** The text has no NUL in it. *)
Definition nul_free (s : string) : bool := negb (mem nul s).

(** [q] occurs in [s] up to ASCII case: the reading of "case-insensitive
    substring". *)
Definition ci_substring (q s : string) : Prop :=
  exists pre mid post : string,
    s = (pre ++ mid ++ post)%string /\ lower mid = lower q.

Fixpoint ci_prefixb (q s : string) : bool :=
  match q, s with
  | EmptyString, _ => true
  | String _ _, EmptyString => false
  | String a q', String b s' =>
      Ascii.eqb (lower_char a) (lower_char b) && ci_prefixb q' s'
  end.

Fixpoint ci_substringb (q s : string) : bool :=
  ci_prefixb q s
  || match s with
     | EmptyString => false
     | String _ s' => ci_substringb q s'
     end.

End PyStr.

(* ===================================================================== *)
(** ** The table and the session *)
(* ===================================================================== *)

Module Orm.

(** [class Recipe(Base)].  [id] is [None] on an object that has not been
    flushed; the engine fills it in on INSERT. *)
Record Recipe : Type := mkRecipe {
  id : option Z;
  name : string;
  cuisine : string;
  prep_time : string;
  cook_time : string;
  servings : string;
  ingredients : string;
  instructions : string;
  image_color : string
}.

(** The [recipes] table, rows in the order a scan returns them. *)
Definition Table : Type := list Recipe.

Inductive Statement : Type := SELECT | INSERT | COMMIT | ROLLBACK.

(** A session: the database it is bound to, the objects handed to [add] and
    not yet flushed, and the statements it has sent so far. *)
Record Session : Type := mkSession {
  store : Table;
  pending : list Recipe;
  issued : list Statement
}.

(** [SessionLocal()] on a database. *)
Definition SessionLocal (t : Table) : Session :=
  {| store := t; pending := []; issued := [] |}.

Inductive exn : Type :=
| HTTPException (status_code : Z) (detail : string)
| IntegrityError
| OtherError (description : string).

(** [str(e)] *)
Definition str (e : exn) : string :=
  match e with
  | HTTPException _ d => d
  | IntegrityError => "IntegrityError"
  | OtherError d => d
  end.

Inductive outcome (A : Type) : Type :=
| Returned (a : A)
| Raised (e : exn).
Arguments Returned {A} a.
Arguments Raised {A} e.

(** Session code: it returns or raises, and the session survives both. *)
Definition DB (A : Type) : Type := Session -> outcome A * Session.

Definition ret {A} (a : A) : DB A := fun s => (Returned a, s).

Definition bind {A B} (c : DB A) (k : A -> DB B) : DB B :=
  fun s => match c s with
           | (Returned a, s') => k a s'
           | (Raised e, s') => (Raised e, s')
           end.

Definition raise {A} (e : exn) : DB A := fun s => (Raised e, s).

(** [try: body / except ... : handler] where the handlers together catch
    every exception. *)
Definition try_except {A} (body : DB A) (handler : exn -> DB A) : DB A :=
  fun s => match body s with
           | (Returned a, s') => (Returned a, s')
           | (Raised e, s') => handler e s'
           end.

Definition issue (st : list Statement) : DB unit :=
  fun s => (Returned tt,
            {| store := store s; pending := pending s;
               issued := issued s ++ st |}).

Definition rows : DB Table := fun s => (Returned (store s), s).

(** A boolean SQL expression over a row: what it evaluates to on a row,
    or the error the engine raises while evaluating it there, and the
    integers bound to it as parameters. *)
Record Expression : Type := mkExpression {
  holds : Recipe -> string + bool;
  integers : list Z
}.

(** A query under construction: its WHERE clause. *)
Definition Query : Type := Expression.

(** [db.query(Recipe)] *)
Definition query : Query :=
  {| holds := fun _ => inr true; integers := [] |}.

(** [q.filter(criterion)]: the criterion is ANDed to the clause. *)
Definition filter_by (q : Query) (criterion : Expression) : Query :=
  {| holds := fun r => match holds q r with
                       | inl err => inl err
                       | inr false => inr false
                       | inr true => holds criterion r
                       end;
     integers := integers q ++ integers criterion |}.

(** The row's key is [recipe_id]. *)
Definition id_eq (recipe_id : Z) : Recipe -> bool :=
  fun r => match id r with Some k => Z.eqb k recipe_id | None => false end.

(** [Recipe.id == recipe_id] *)
Definition id_equals (recipe_id : Z) : Expression :=
  {| holds := fun r => inr (id_eq recipe_id r); integers := [recipe_id] |}.

(** [a | b]: the right side is looked at only where the left is false. *)
Definition or_ (a b : Expression) : Expression :=
  {| holds := fun r => match holds a r with
                       | inl err => inl err
                       | inr true => inr true
                       | inr false => holds b r
                       end;
     integers := integers a ++ integers b |}.

(** [column.ilike(pattern)] *)
Definition ilike (column : Recipe -> string) (pattern : string)
  : Expression :=
  {| holds := fun r =>
       if PyStr.too_complex (PyStr.lower pattern)
       then inl "LIKE or GLOB pattern too complex"
       else inr (PyStr.ilike (column r) pattern);
     integers := [] |}.

(** An integer the driver can hand to SQLite: signed, 64 bits. *)
Definition int64 (k : Z) : bool :=
  ((- 2 ^ 63 <=? k) && (k <=? 2 ^ 63 - 1))%Z.

(** The rows of a scan on which the clause holds, or the first error. *)
Fixpoint scan (clause : Recipe -> string + bool) (t : Table)
  : string + list Recipe :=
  match t with
  | [] => inr []
  | r :: t' =>
      match clause r with
      | inl err => inl err
      | inr b =>
          match scan clause t' with
          | inl err => inl err
          | inr found => inr (if b then r :: found else found)
          end
      end
  end.

(** The first row of a scan on which the clause holds; the scan stops
    there. *)
Fixpoint scan_first (clause : Recipe -> string + bool) (t : Table)
  : string + option Recipe :=
  match t with
  | [] => inr None
  | r :: t' =>
      match clause r with
      | inl err => inl err
      | inr true => inr (Some r)
      | inr false => scan_first clause t'
      end
  end.

(** Running a SELECT.  An integer parameter outside 64 bits makes the
    driver raise [OverflowError] before anything is sent; an error of the
    engine during the scan comes back as [OperationalError].  Both are
    exceptions other than [IntegrityError] and [HTTPException]. *)
Definition select {A} (q : Query) (run : Table -> string + A) : DB A :=
  if forallb int64 (integers q) then
    bind (issue [SELECT]) (fun _ =>
    bind rows (fun t =>
      match run t with
      | inr a => ret a
      | inl err => raise (OtherError err)
      end))
  else raise (OtherError "Python int too large to convert to SQLite INTEGER").

(** [q.count()] *)
Definition count (q : Query) : DB nat :=
  select q (fun t => match scan (holds q) t with
                     | inl err => inl err
                     | inr found => inr (List.length found)
                     end).

(** [q.all()] *)
Definition all (q : Query) : DB (list Recipe) :=
  select q (scan (holds q)).

(** [q.first()]: the first matching row of the scan, or [None]. *)
Definition first (q : Query) : DB (option Recipe) :=
  select q (scan_first (holds q)).

(** [db.add(obj)] *)
Definition add (obj : Recipe) : DB unit :=
  fun s => (Returned tt,
            {| store := store s; pending := pending s ++ [obj];
               issued := issued s |}).

Definition rowid (r : Recipe) : Z :=
  match id r with Some k => k | None => 0%Z end.

(** The rowid SQLite gives to a row inserted without one: 1 in an empty
    table, else one more than the largest in use. *)
Definition next_rowid (t : Table) : Z :=
  match t with
  | [] => 1%Z
  | r :: t' => (fold_left Z.max (map rowid t') (rowid r) + 1)%Z
  end.

Definition with_id (k : Z) (r : Recipe) : Recipe :=
  {| id := Some k; name := name r; cuisine := cuisine r;
     prep_time := prep_time r; cook_time := cook_time r;
     servings := servings r; ingredients := ingredients r;
     instructions := instructions r; image_color := image_color r |}.

(** One INSERT: the row goes to the end of the scan order, under its own
    primary key if the object carries one, else under [next_rowid]. *)
Definition insert_row (t : Table) (obj : Recipe) : Table :=
  let k := match id obj with Some k => k | None => next_rowid t end in
  t ++ [with_id k obj].

(** What the engine answers when the pending rows are flushed.  The
    primary-key and other integrity checks are the engine's; the model takes
    its answer as given. *)
Inductive reply : Type :=
| Accepted
| Rejected
| Failed (description : string).

(** [db.commit()]: flush the pending objects, then commit.  Returns the
    flushed objects as stored (flush writes the primary key back into
    them).  When the flush fails nothing is written and the exception goes
    to the caller. *)
Definition commit (e : reply) : DB (list Recipe) :=
  fun s =>
    match e with
    | Accepted =>
        let t' := fold_left insert_row (pending s) (store s) in
        (Returned (skipn (List.length (store s)) t'),
         {| store := t'; pending := [];
            issued := issued s
                      ++ repeat INSERT (List.length (pending s))
                      ++ [COMMIT] |})
    | Rejected =>
        (Raised IntegrityError,
         {| store := store s; pending := pending s;
            issued := issued s ++ [INSERT; ROLLBACK] |})
    | Failed d =>
        (Raised (OtherError d),
         {| store := store s; pending := pending s;
            issued := issued s ++ [INSERT; ROLLBACK] |})
    end.

(** [db.rollback()] *)
Definition rollback : DB unit :=
  fun s => (Returned tt,
            {| store := store s; pending := [];
               issued := issued s ++ [ROLLBACK] |}).

(** [db.refresh(obj)]: reload the row with [obj]'s primary key. *)
Definition refresh (obj : Recipe) : DB Recipe :=
  bind (issue [SELECT]) (fun _ =>
  bind rows (fun t =>
    match find (id_eq (rowid obj)) t with
    | Some r => ret r
    | None => raise (OtherError "Could not refresh instance")
    end)).

(** [for x in xs: body(x)] *)
Fixpoint for_each {A} (xs : list A) (body : A -> DB unit) : DB unit :=
  match xs with
  | [] => ret tt
  | x :: xs' => bind (body x) (fun _ => for_each xs' body)
  end.

(** Rows as the program leaves them: every row has a primary key and the
    keys increase along the scan. *)
Fixpoint increasing (bound : Z) (t : Table) : Prop :=
  match t with
  | [] => True
  | r :: t' =>
      (exists k, id r = Some k /\ (bound < k)%Z /\ increasing k t')
  end.

Definition well_formed (t : Table) : Prop := increasing 0 t.

End Orm.

Declare Scope db_scope.
Delimit Scope db_scope with db.
Notation "x <- c ;; k" := (Orm.bind c (fun x => k))
  (at level 61, c at next level, right associativity) : db_scope.
Notation "c ;;; k" := (Orm.bind c (fun _ => k))
  (at level 61, right associativity) : db_scope.

(* ===================================================================== *)
(** ** Form parameters *)
(* ===================================================================== *)

Module Binding.

(** The decoded body of a form post: the fields in the order sent, a name
    possibly more than once. *)
Definition FormData : Type := list (string * string).

(** [form.get(key)]: the last value sent under [key]. *)
Fixpoint get (key : string) (form : FormData) : option string :=
  match form with
  | [] => None
  | (k, v) :: rest =>
      match get key rest with
      | Some v' => Some v'
      | None => if String.eqb k key then Some v else None
      end
  end.

(** The value the framework has for a [Form] parameter with a default: a
    field that was not sent, or sent empty, has none. *)
Definition field (key : string) (form : FormData) : option string :=
  match get key form with
  | Some EmptyString => None
  | o => o
  end.

(** Releases of the framework differ on a parameter declared [Form(...)]
    whose field is sent empty: some report the field missing, the others
    bind the empty string.  The program pins no release. *)
Inductive release : Type := empty_is_missing | empty_is_value.

(** The value the framework binds to a parameter declared [Form(...)]. *)
Definition required_field (rel : release) (key : string) (form : FormData)
  : option string :=
  match rel with
  | empty_is_missing => field key form
  | empty_is_value => get key form
  end.

(** The parameters declared [Form(...)], in signature order. *)
Definition required : list string :=
  ["name"; "cuisine"; "prep_time"; "cook_time"; "servings"; "ingredients";
   "instructions"].

Definition has_value (rel : release) (form : FormData) (key : string)
  : bool :=
  match required_field rel key form with Some _ => true | None => false end.

Definition missing (rel : release) (form : FormData) : list string :=
  filter (fun key => negb (has_value rel form key)) required.

(** A parameter declared [Form(default)]. *)
Definition optional (default key : string) (form : FormData) : string :=
  match field key form with Some v => v | None => default end.

(** Binding the eight parameters of the submit endpoint: either the
    endpoint applied to the bound values, or the required fields that have
    no value. *)
Definition bind_form {A : Type} (rel : release) (form : FormData)
  (endpoint : string -> string -> string -> string -> string -> string ->
              string -> string -> A) : list string + A :=
  match required_field rel "name" form, required_field rel "cuisine" form,
        required_field rel "prep_time" form,
        required_field rel "cook_time" form,
        required_field rel "servings" form,
        required_field rel "ingredients" form,
        required_field rel "instructions" form with
  | Some name, Some cuisine, Some prep_time, Some cook_time, Some servings,
    Some ingredients, Some instructions =>
      inr (endpoint name cuisine prep_time cook_time servings ingredients
             instructions (optional "#cccccc" "image_color" form))
  | _, _, _, _, _, _, _ => inl (missing rel form)
  end.

(** Binding went through: the result is the endpoint applied to eight
    values. *)
Definition bind_form_result_is_call {A : Type} (rel : release)
  (form : FormData)
  (endpoint : string -> string -> string -> string -> string -> string ->
              string -> string -> A) : Prop :=
  exists n c p ck sv ing ins col,
    bind_form rel form endpoint = inr (endpoint n c p ck sv ing ins col).




End Binding.

(* ===================================================================== *)
(** ** The application *)
(* ===================================================================== *)

Module App.
Import Orm.
Local Open Scope db_scope.

(** What a template is rendered from. *)
Inductive Context : Type :=
| home_context (recipes : list Recipe)
| detail_context (recipe : Recipe)
    (ingredients_list instructions_list : list string)
| form_context (message error : option string)
| search_context (recipes : list Recipe) (query : string).

Inductive Response : Type :=
| TemplateResponse (template : string) (context : Context)
| RedirectResponse (url : string) (status_code : Z)
| Payload (items : list (string * string))
| HTTPError (status_code : Z) (detail : string)
| RequestValidationError (missing : list string)
| InternalServerError.

(** The status line of a response.  A template is served with 200, a
    redirect and an [HTTPException] with the code they carry, a request
    that fails parameter binding with 422, an exception nobody catches
    with 500.  The status of a handler's bare dictionary is the framework's
    to decide and is not modelled. *)
Definition status (r : Response) : option Z :=
  match r with
  | TemplateResponse _ _ => Some 200%Z
  | RedirectResponse _ code => Some code
  | Payload _ => None
  | HTTPError code _ => Some code
  | RequestValidationError _ => Some 422%Z
  | InternalServerError => Some 500%Z
  end.

Definition recipes_data : list Recipe :=
  [ mkRecipe None "Spaghetti Carbonara" "Italian" "15 min" "20 min" "4"
      "Pasta, Eggs, Pecorino Romano, Guanciale/Pancetta, Black Pepper"
      "1. Cook pasta. 2. Fry guanciale. 3. Mix eggs, cheese, pepper. 4. Combine all."
      "#F4A261";
    mkRecipe None "Chicken Tikka Masala" "Indian" "30 min" "45 min" "6"
      "Chicken, Yogurt, Spices, Tomatoes, Cream"
      "1. Marinate chicken. 2. Cook chicken. 3. Make sauce. 4. Combine."
      "#E76F51";
    mkRecipe None "Beef Tacos" "Mexican" "20 min" "25 min" "4"
      "Ground Beef, Tortillas, Lettuce, Cheese, Salsa, Taco Seasoning"
      "1. Cook beef. 2. Warm tortillas. 3. Assemble tacos."
      "#2A9D8F";
    mkRecipe None "Sushi Rolls" "Japanese" "60 min" "0 min" "2"
      "Sushi Rice, Nori, Fish, Avocado, Cucumber"
      "1. Cook sushi rice. 2. Prepare fillings. 3. Roll sushi."
      "#E9C46A";
    mkRecipe None "French Onion Soup" "French" "20 min" "60 min" "4"
      "Onions, Beef Broth, Baguette, Gruyere Cheese, Butter"
      "1. Caramelize onions. 2. Add broth. 3. Toast bread, melt cheese."
      "#DDA15E";
    mkRecipe None "Pad Thai" "Thai" "25 min" "30 min" "2"
      "Rice Noodles, Shrimp/Tofu, Peanuts, Bean Sprouts, Egg, Tamarind Sauce"
      "1. Soak noodles. 2. Cook protein. 3. Stir-fry with sauce and veggies."
      "#F5D491";
    mkRecipe None "Mediterranean Salad" "Mediterranean" "15 min" "0 min" "3"
      "Cucumbers, Tomatoes, Feta, Olives, Red Onion, Olive Oil, Lemon Juice"
      "1. Chop veggies. 2. Crumble feta. 3. Dress and serve."
      "#8BC34A";
    mkRecipe None "Classic Lasagna" "Italian" "30 min" "60 min" "8"
      "Lasagna Noodles, Ground Beef, Ricotta, Mozzarella, Marinara Sauce"
      "1. Cook meat sauce. 2. Layer noodles, sauce, cheese. 3. Bake."
      "#CD5C5C" ].

(** [seed_database(db)]; [e] is the engine's answer to the flush, should
    one happen.  The [print] at the end is not modelled. *)
Definition seed_database (e : reply) : DB unit :=
  n <- count query ;;
  if Nat.eqb n 0 then
    for_each recipes_data (fun recipe => add recipe) ;;;
    commit e ;;;
    ret tt
  else ret tt.

(** [on_startup()]: a session of its own, seed, close.  Closing drops what
    was not committed. *)
Definition on_startup (e : reply) (t : Table) : outcome unit * Table :=
  let '(o, s) := seed_database e (SessionLocal t) in (o, store s).

Definition health_check : Response := Payload [("status", "ok")].

Definition home : DB Response :=
  recipes <- all query ;;
  ret (TemplateResponse "home.html" (home_context recipes)).

Definition recipe_detail (recipe_id : Z) : DB Response :=
  recipe <- first (filter_by query (id_equals recipe_id)) ;;
  match recipe with
  | None => raise (HTTPException 404 "Recipe not found")
  | Some recipe =>
      let ingredients_list := PyStr.split_strip "," (ingredients recipe) in
      let instructions_list := PyStr.split_strip "." (instructions recipe) in
      ret (TemplateResponse "recipe_detail.html"
             (detail_context recipe ingredients_list instructions_list))
  end.

Definition add_recipe_form : Response :=
  TemplateResponse "add_recipe.html" (form_context None None).

(** [app.url_path_for("home")] *)
Definition home_path : string := "/".

(** [add_recipe_submit]; [e] is the engine's answer to the flush.  The
    flush writes the primary key into [new_recipe] itself; here the object
    as stored is what [commit] returns, and that is what is refreshed. *)
Definition add_recipe_submit (e : reply)
  (name cuisine prep_time cook_time servings ingredients instructions
   image_color : string) : DB Response :=
  try_except
    (let new_recipe :=
       mkRecipe None name cuisine prep_time cook_time servings ingredients
         instructions image_color in
     add new_recipe ;;;
     flushed <- commit e ;;
     for_each flushed (fun obj => refresh obj ;;; ret tt) ;;;
     ret (RedirectResponse home_path 303))
    (fun exc =>
       match exc with
       | IntegrityError =>
           rollback ;;;
           ret (TemplateResponse "add_recipe.html"
                  (form_context None
                     (Some "Failed to add recipe. Please check your input.")))
       | _ =>
           rollback ;;;
           ret (TemplateResponse "add_recipe.html"
                  (form_context None
                     (Some ("An unexpected error occurred: " ++ str exc)%string)))
       end).

Definition search_recipes (query_ : string) : DB Response :=
  recipes <-
    (if PyStr.truthy query_ then
       let search_pattern := ("%" ++ query_ ++ "%")%string in
       all (filter_by query
              (or_ (or_ (ilike name search_pattern)
                        (ilike ingredients search_pattern))
                   (ilike cuisine search_pattern)))
     else ret []) ;;
  ret (TemplateResponse "search_results.html"
         (search_context recipes query_)).

(** [Depends(get_db)]: a session for the request, closed when the handler
    is done, whether it returned or raised. *)
Definition get_db {A} (handler : DB A) (t : Table) : outcome A * Table :=
  let '(o, s) := handler (SessionLocal t) in (o, store s).

Inductive Request : Type :=
| GET_health
| GET_home
| GET_recipe (recipe_id : Z)
| GET_add_recipe
| POST_add_recipe (form : Binding.FormData)
| GET_search (query_ : option string).

(** What the framework makes of a handler's outcome. *)
Definition respond (o : outcome Response) : Response :=
  match o with
  | Returned r => r
  | Raised (HTTPException code detail) => HTTPError code detail
  | Raised _ => InternalServerError
  end.

(** One request against the database [t], under the release [rel] of the
    framework and with [e] the engine's answer to a flush: the response
    and the database afterwards. *)
Definition serve (rel : Binding.release) (e : reply) (req : Request)
  (t : Table) : Response * Table :=
  match req with
  | GET_health => (health_check, t)
  | GET_home => let '(o, t') := get_db home t in (respond o, t')
  | GET_recipe recipe_id =>
      let '(o, t') := get_db (recipe_detail recipe_id) t in (respond o, t')
  | GET_add_recipe => (add_recipe_form, t)
  | POST_add_recipe form =>
      match Binding.bind_form rel form (add_recipe_submit e) with
      | inl missing => (RequestValidationError missing, t)
      | inr handler => let '(o, t') := get_db handler t in (respond o, t')
      end
  | GET_search query_ =>
      let q := match query_ with Some q => q | None => EmptyString end in
      let '(o, t') := get_db (search_recipes q) t in (respond o, t')
  end.

(** Abbreviations for the statements below: the add form rendered with an
    error text, the WHERE clause of the search, and the rows a seeded empty
    table holds. *)
Definition error_form (text : string) : Response :=
  TemplateResponse "add_recipe.html" (form_context None (Some text)).

Definition search_filter (search_pattern : string) : Recipe -> bool :=
  fun r => PyStr.ilike (name r) search_pattern
           || PyStr.ilike (ingredients r) search_pattern
           || PyStr.ilike (cuisine r) search_pattern.

Definition demo_rows : Table :=
  map (fun '(k, r) => with_id k r)
    (combine [1; 2; 3; 4; 5; 6; 7; 8]%Z recipes_data).

(** The tables the program can arrive at: it starts on an empty table,
    seeds at start-up and then serves requests, the engine answering each
    flush as it will. *)
Inductive reachable (rel : Binding.release) : Table -> Prop :=
| reachable_created : reachable rel []
| reachable_startup e t :
    reachable rel t -> reachable rel (snd (on_startup e t))
| reachable_serve e req t :
    reachable rel t -> reachable rel (snd (serve rel e req t)).

(** No text column of the row is the empty string. *)
Definition nonblank (r : Recipe) : Prop :=
  name r <> EmptyString /\ cuisine r <> EmptyString
  /\ prep_time r <> EmptyString /\ cook_time r <> EmptyString
  /\ servings r <> EmptyString /\ ingredients r <> EmptyString
  /\ instructions r <> EmptyString /\ image_color r <> EmptyString.

(** The colour of the row is not empty, and under a release that reports
    an empty required field as missing no text column is. *)
Definition filled_in (rel : Binding.release) (r : Recipe) : Prop :=
  image_color r <> EmptyString
  /\ (rel = Binding.empty_is_missing -> nonblank r).

(** The rows a search response lists; [[]] for any other response. *)
Definition found_by (r : Response) : list Recipe :=
  match r with
  | TemplateResponse _ (search_context recipes _) => recipes
  | _ => []
  end.

End App.

(* ===================================================================== *)
(** ** Sample inputs *)
(* ===================================================================== *)

Module Sample.
Import Orm.

(** A submission of the add form with every field filled in. *)
Definition full_form : Binding.FormData :=
  [("name", "Miso Soup"); ("cuisine", "Japanese"); ("prep_time", "5 min");
   ("cook_time", "10 min"); ("servings", "2");
   ("ingredients", "Dashi, Miso, Tofu, Wakame");
   ("instructions", "1. Heat dashi. 2. Whisk in miso.");
   ("image_color", "#112233")].

(** The same without a colour field. *)
Definition form_without_color : Binding.FormData :=
  removelast full_form.

(** The same with the colour field sent empty. *)
Definition form_with_empty_color : Binding.FormData :=
  removelast full_form ++ [("image_color", "")].

(** The same with the name field sent empty. *)
Definition form_with_empty_name : Binding.FormData :=
  ("name", "") :: tl full_form.

(** The same without a name field. *)
Definition form_without_name : Binding.FormData :=
  tl full_form.

Definition sushi : Recipe :=
  mkRecipe (Some 1%Z) "Sushi Rolls" "Japanese" "60 min" "0 min" "2"
    "Sushi Rice, Nori, Fish, Avocado, Cucumber"
    "1. Cook sushi rice. 2. Prepare fillings. 3. Roll sushi."
    "#E9C46A".

End Sample.

(* ===================================================================== *)
(** ** Facts about the string operations *)
(* ===================================================================== *)

Section StringFacts.
Import PyStr.

Lemma split_nonempty sep s : split sep s <> [].
Proof.
  destruct s as [|c s']; simpl; [discriminate|].
  destruct (Ascii.eqb c sep); [discriminate|].
  destruct (split sep s'); discriminate.
Qed.

(** Joining the fragments with the separator gives the text back. *)
Lemma join_split sep s : join sep (split sep s) = s.
Proof.
  induction s as [|c s' IH]; simpl; [reflexivity|].
  destruct (Ascii.eqb_spec c sep) as [->|Hne].
  - destruct (split sep s') as [|h t] eqn:E.
    + exfalso. exact (split_nonempty sep s' E).
    + simpl in *. now rewrite IH.
  - destruct (split sep s') as [|h t] eqn:E.
    + exfalso. exact (split_nonempty sep s' E).
    + destruct t as [|h' t']; simpl in *; now rewrite <- IH.
Qed.

(** No fragment contains the separator. *)
Lemma split_no_sep sep s : Forall (fun p => mem sep p = false) (split sep s).
Proof.
  induction s as [|c s' IH]; simpl.
  - constructor; [reflexivity|constructor].
  - destruct (Ascii.eqb_spec c sep) as [->|Hne].
    + constructor; [reflexivity|exact IH].
    + destruct (split sep s') as [|h t] eqn:E.
      * exfalso. exact (split_nonempty sep s' E).
      * inversion IH as [|? ? Hh Ht]; subst.
        constructor; [|exact Ht].
        simpl. rewrite Hh.
        destruct (Ascii.eqb_spec sep c) as [->|]; [contradiction|reflexivity].
Qed.

Lemma lstrip_spec s :
  exists l : string, s = (l ++ lstrip s)%string /\ all_space l = true
    /\ (forall c, first_char (lstrip s) = Some c -> isspace c = false).
Proof.
  induction s as [|c s' (l & Hs & Hl & Hf)]; simpl.
  - exists EmptyString. repeat split. discriminate.
  - destruct (isspace c) eqn:Hc.
    + exists (String c l). simpl. rewrite Hc, Hl. repeat split; [|exact Hf].
      now rewrite <- Hs.
    + exists EmptyString. repeat split. simpl. intros d [= <-]. exact Hc.
Qed.

Lemma rstrip_spec s :
  exists r : string, s = (rstrip s ++ r)%string /\ all_space r = true
    /\ (forall c, last_char (rstrip s) = Some c -> isspace c = false)
    /\ (forall c, first_char (rstrip s) = Some c -> first_char s = Some c).
Proof.
  induction s as [|c s' (r & Hs & Hr & Hl & Hf)]; simpl.
  - exists EmptyString. repeat split; intros; try discriminate; auto.
  - destruct (rstrip s') as [|d u] eqn:E.
    + destruct (isspace c) eqn:Hc.
      * exists (String c r). simpl in *. rewrite Hc, Hr, <- Hs.
        repeat split; intros; try discriminate; auto.
      * exists r. simpl in *. rewrite <- Hs.
        repeat split; intros; auto; congruence.
    + exists r. simpl in *. rewrite <- Hs.
      repeat split; intros; auto.
Qed.

(** [strip] removes a run of white space at each end and nothing else, and
    leaves none there. *)
Lemma strip_trim_of s : trim_of s (strip s).
Proof.
  unfold trim_of, strip.
  destruct (lstrip_spec s) as (l & Hs & Hl & Hf).
  destruct (rstrip_spec (lstrip s)) as (r & Hs' & Hr & Hlast & Hfirst).
  exists l, r. split; [now rewrite <- Hs'|].
  split; [exact Hl|]. split; [exact Hr|].
  split; [|exact Hlast].
  intros c Hc. apply Hf. now apply Hfirst.
Qed.

Lemma map_filter_strip (l : list string) :
  map strip (filter (fun item => truthy (strip item)) l)
  = filter truthy (map strip l).
Proof.
  induction l as [|x l IH]; simpl; [reflexivity|].
  destruct (truthy (strip x)); simpl; now rewrite IH.
Qed.

End StringFacts.

(* ===================================================================== *)
(** ** Facts about [LIKE] *)
(* ===================================================================== *)

Section LikeFacts.
Import PyStr.

Ltac by_cases_on_char c :=
  destruct c as [[] [] [] [] [] [] [] []]; reflexivity.

Lemma lower_char_idem c : lower_char (lower_char c) = lower_char c.
Proof. by_cases_on_char c. Qed.

Lemma lower_char_percent c :
  Ascii.eqb (lower_char c) percent = Ascii.eqb c percent.
Proof. by_cases_on_char c. Qed.

Lemma lower_char_underscore c :
  Ascii.eqb (lower_char c) underscore = Ascii.eqb c underscore.
Proof. by_cases_on_char c. Qed.

Lemma lower_app (a b : string) :
  lower (a ++ b) = (lower a ++ lower b)%string.
Proof. induction a as [|c a IH]; simpl; [reflexivity|now rewrite IH]. Qed.

Lemma lower_idem s : lower (lower s) = lower s.
Proof.
  induction s as [|c s IH]; simpl; [reflexivity|].
  now rewrite lower_char_idem, IH.
Qed.

(** A split of [lower s] comes from a split of [s]. *)
Lemma lower_split (a : string) : forall s b : string,
  lower s = (a ++ b)%string ->
  exists a' b' : string, s = (a' ++ b')%string /\ lower a' = a /\ lower b' = b.
Proof.
  induction a as [|c a IH]; intros s b H.
  - exists EmptyString, s. auto.
  - destruct s as [|d s]; simpl in H; [discriminate|].
    injection H as Hc Hs.
    destruct (IH _ _ Hs) as (a' & b' & -> & Ha & Hb).
    exists (String d a'), b'. simpl. now rewrite Hc, Ha.
Qed.

Lemma mem_lower_percent q : mem percent (lower q) = mem percent q.
Proof.
  induction q as [|c q IH]; cbn [mem lower]; [reflexivity|].
  rewrite IH. f_equal.
  rewrite Ascii.eqb_sym, lower_char_percent. apply Ascii.eqb_sym.
Qed.

Lemma mem_lower_underscore q : mem underscore (lower q) = mem underscore q.
Proof.
  induction q as [|c q IH]; cbn [mem lower]; [reflexivity|].
  rewrite IH. f_equal.
  rewrite Ascii.eqb_sym, lower_char_underscore. apply Ascii.eqb_sym.
Qed.

Lemma literal_lower q : literal (lower q) = literal q.
Proof.
  unfold literal. now rewrite mem_lower_percent, mem_lower_underscore.
Qed.

Lemma literal_cons c q :
  literal (String c q) = true ->
  Ascii.eqb c percent = false /\ Ascii.eqb c underscore = false
  /\ literal q = true.
Proof.
  unfold literal. cbn [mem]. intros H.
  apply andb_true_iff in H as [H1 H2].
  apply negb_true_iff, orb_false_iff in H1 as [H1 H1'].
  apply negb_true_iff, orb_false_iff in H2 as [H2 H2'].
  rewrite Ascii.eqb_sym in H1. rewrite Ascii.eqb_sym in H2.
  now rewrite H1, H2, H1', H2'.
Qed.

(** The three unfoldings of [pattern_compare] on a non-empty pattern. *)
Lemma like_percent_eq p s :
  pattern_compare (String percent p) s
  = pattern_compare p s
    || match s with
       | EmptyString => false
       | String _ s' => pattern_compare (String percent p) s'
       end.
Proof. destruct s; reflexivity. Qed.

Lemma like_char_eq a p s :
  Ascii.eqb a percent = false -> Ascii.eqb a underscore = false ->
  pattern_compare (String a p) s
  = match s with
    | EmptyString => false
    | String c s' => Ascii.eqb (lower_char a) (lower_char c) && pattern_compare p s'
    end.
Proof. intros H1 H2. cbn [pattern_compare]. rewrite H1, H2. reflexivity. Qed.

(** [%] at the head of a pattern skips any prefix of the text. *)
Lemma like_percent p s :
  pattern_compare (String percent p) s = true
  <-> exists pre post : string, s = (pre ++ post)%string /\ pattern_compare p post = true.
Proof.
  induction s as [|c s IH]; rewrite like_percent_eq.
  - rewrite orb_false_r. split.
    + intros H. now exists EmptyString, EmptyString.
    + intros (pre & post & Hs & H).
      destruct pre; [|discriminate]. simpl in Hs. now subst.
  - rewrite orb_true_iff, IH. split.
    + intros [H | (pre & post & -> & H)].
      * now exists EmptyString, (String c s).
      * now exists (String c pre), post.
    + intros (pre & post & Hs & H).
      destruct pre as [|d pre]; simpl in Hs.
      * left. now subst.
      * injection Hs as -> ->. right. now exists pre, post.
Qed.

Lemma like_only_percent s : pattern_compare (String percent EmptyString) s = true.
Proof.
  apply like_percent. exists s, EmptyString. split; [|reflexivity].
  induction s as [|c s IH]; simpl; [reflexivity|now rewrite <- IH].
Qed.

(** A wildcard-free head of a pattern consumes a piece of the text equal to
    it up to case. *)
Lemma like_literal_prefix q : literal q = true -> forall p s,
  pattern_compare (q ++ p) s = true
  <-> exists mid rest : string,
        s = (mid ++ rest)%string /\ lower mid = lower q /\ pattern_compare p rest = true.
Proof.
  induction q as [|a q IH]; intros Hq p s.
  - simpl. split.
    + intros H. now exists EmptyString, s.
    + intros (mid & rest & -> & Hm & H).
      destruct mid; [exact H|discriminate].
  - apply literal_cons in Hq as (H1 & H2 & Hq).
    change (String a q ++ p)%string with (String a (q ++ p)).
    rewrite (like_char_eq _ _ _ H1 H2).
    destruct s as [|c s].
    + split; [discriminate|].
      intros (mid & rest & Hs & Hm & _).
      destruct mid; simpl in *; discriminate.
    + rewrite andb_true_iff, (IH Hq). split.
      * intros [Hc (mid & rest & -> & Hm & H)].
        exists (String c mid), rest. simpl.
        apply Ascii.eqb_eq in Hc. now rewrite Hm, Hc.
      * intros (mid & rest & Hs & Hm & H).
        destruct mid as [|d mid]; simpl in *; [discriminate|].
        injection Hs as -> ->. injection Hm as Hc Hm.
        split; [apply Ascii.eqb_eq; congruence|].
        now exists mid, rest.
Qed.

(** A wildcard-free [q] between two [%]: [q] occurs in the text up to
    case. *)
Lemma like_contains q s :
  literal q = true ->
  (pattern_compare ("%" ++ q ++ "%") s = true
   <-> exists pre mid post : string,
         s = (pre ++ mid ++ post)%string /\ lower mid = lower q).
Proof.
  intros Hq.
  change ("%" ++ q ++ "%")%string with (String percent (q ++ "%")).
  rewrite like_percent. split.
  - intros (pre & post & -> & H).
    apply (like_literal_prefix q Hq) in H as (mid & rest & -> & Hm & _).
    now exists pre, mid, rest.
  - intros (pre & mid & post & -> & Hm).
    exists pre, (mid ++ post)%string. split; [reflexivity|].
    apply (like_literal_prefix q Hq). exists mid, post.
    repeat split; auto. apply like_only_percent.
Qed.

Lemma lower_char_nul c : Ascii.eqb (lower_char c) nul = Ascii.eqb c nul.
Proof. by_cases_on_char c. Qed.

Lemma lower_char_width c :
  Nat.ltb (nat_of_ascii (lower_char c)) 128 = Nat.ltb (nat_of_ascii c) 128.
Proof. by_cases_on_char c. Qed.

(** Folding the case moves no NUL and changes no length. *)
Lemma c_string_lower s : c_string (lower s) = lower (c_string s).
Proof.
  induction s as [|c s IH]; cbn [c_string lower]; [reflexivity|].
  rewrite lower_char_nul.
  destruct (Ascii.eqb c nul); [reflexivity|].
  cbn [lower]. now rewrite IH.
Qed.

Lemma utf8_length_lower s : utf8_length (lower s) = utf8_length s.
Proof.
  induction s as [|c s IH]; cbn [utf8_length lower]; [reflexivity|].
  now rewrite lower_char_width, IH.
Qed.

Lemma too_complex_lower s : too_complex (lower s) = too_complex s.
Proof. unfold too_complex. now rewrite utf8_length_lower. Qed.

Lemma c_string_nul_free s : nul_free s = true -> c_string s = s.
Proof.
  unfold nul_free. induction s as [|c s IH]; cbn [c_string mem];
    [reflexivity|].
  intros H. apply negb_true_iff, orb_false_iff in H as [Hc Hs].
  rewrite Ascii.eqb_sym, Hc. rewrite IH; [reflexivity|].
  now apply negb_true_iff.
Qed.

Lemma nul_free_app (a b : string) :
  nul_free (a ++ b) = nul_free a && nul_free b.
Proof.
  unfold nul_free.
  induction a as [|c a IH]; cbn [append mem]; [reflexivity|].
  rewrite !negb_orb in *. now rewrite IH, andb_assoc.
Qed.

(** The pattern the search handler builds, on a query without wildcard
    and without NUL: the query occurs, up to case, in the text as far as
    its first NUL. *)
Lemma ilike_contains q s :
  literal q = true -> nul_free q = true ->
  (ilike s ("%" ++ q ++ "%") = true <-> ci_substring q (c_string s)).
Proof.
  intros Hq Hn. unfold ilike, like, ci_substring.
  rewrite !c_string_lower.
  rewrite (c_string_nul_free ("%" ++ q ++ "%")).
  2:{ change ("%" ++ q ++ "%")%string with ("%" ++ (q ++ "%"))%string.
      rewrite !nul_free_app, Hn. reflexivity. }
  change ("%" ++ q ++ "%")%string with (String percent (q ++ "%")).
  cbn [lower]. rewrite lower_app.
  change (String (lower_char percent) (lower q ++ lower "%"))
    with ("%" ++ lower q ++ "%")%string.
  rewrite like_contains by (now rewrite literal_lower).
  rewrite lower_idem. split.
  - intros (pre & mid & post & Hs & Hm).
    apply lower_split in Hs as (pre' & rest & -> & Hpre & Hrest).
    apply lower_split in Hrest as (mid' & post' & -> & Hmid & Hpost).
    exists pre', mid', post'. split; [reflexivity|].
    rewrite <- Hm, <- Hmid. now rewrite lower_idem.
  - intros (pre & mid & post & -> & Hm).
    exists (lower pre), (lower mid), (lower post).
    rewrite !lower_app, lower_idem. auto.
Qed.

Lemma ci_prefixb_spec q : forall s,
  ci_prefixb q s = true
  <-> exists mid rest : string, s = (mid ++ rest)%string /\ lower mid = lower q.
Proof.
  induction q as [|a q IH]; intros s.
  - simpl. split; [|reflexivity]. intros _. now exists EmptyString, s.
  - destruct s as [|c s]; simpl.
    + split; [discriminate|].
      intros (mid & rest & Hs & Hm). destruct mid; discriminate.
    + rewrite andb_true_iff, IH. split.
      * intros [Hc (mid & rest & -> & Hm)].
        exists (String c mid), rest. simpl.
        apply Ascii.eqb_eq in Hc. now rewrite Hm, Hc.
      * intros (mid & rest & Hs & Hm).
        destruct mid as [|d mid]; simpl in *; [discriminate|].
        injection Hs as -> ->. injection Hm as Hc Hm.
        split; [apply Ascii.eqb_eq; congruence|].
        now exists mid, rest.
Qed.

(** [ci_substringb] decides [ci_substring]. *)
Lemma ci_substringb_spec q : forall s,
  ci_substringb q s = true <-> ci_substring q s.
Proof.
  unfold ci_substring.
  induction s as [|c s IH]; simpl; rewrite orb_true_iff, ci_prefixb_spec.
  - split.
    + intros [(mid & rest & Hs & Hm) | H]; [|discriminate].
      now exists EmptyString, mid, rest.
    + intros (pre & mid & post & Hs & Hm). left.
      destruct pre; [|discriminate]. now exists mid, post.
  - rewrite IH. split.
    + intros [(mid & rest & Hs & Hm) | (pre & mid & post & -> & Hm)].
      * now exists EmptyString, mid, rest.
      * now exists (String c pre), mid, post.
    + intros (pre & mid & post & Hs & Hm).
      destruct pre as [|d pre]; simpl in Hs.
      * left. now exists mid, post.
      * injection Hs as -> ->. right. now exists pre, mid, post.
Qed.

End LikeFacts.

(* ===================================================================== *)
(** ** Facts about the table and the session calls *)
(* ===================================================================== *)

Section OrmFacts.
Import Orm.

Lemma skipn_length_app {A} (l l' : list A) :
  skipn (List.length l) (l ++ l') = l'.
Proof. induction l; simpl; auto. Qed.

Lemma find_last_some {A} (f : A -> bool) (l : list A) (x : A) :
  f x = true -> exists y, find f (l ++ [x]) = Some y /\ f y = true.
Proof.
  intros Hx. induction l as [|a l IH]; simpl.
  - rewrite Hx. eauto.
  - destruct (f a) eqn:Ha; eauto.
Qed.

Lemma find_none_iff {A} (f : A -> bool) (l : list A) :
  find f l = None <-> forall x, In x l -> f x = false.
Proof.
  split.
  - intros H x Hx. exact (find_none f l H x Hx).
  - induction l as [|a l IH]; intros H; simpl; [reflexivity|].
    rewrite (H a (or_introl eq_refl)). apply IH.
    intros x Hx. apply H. now right.
Qed.

Lemma id_eq_true recipe_id r :
  id_eq recipe_id r = true <-> id r = Some recipe_id.
Proof.
  unfold id_eq. destruct (id r) as [k|].
  - rewrite Z.eqb_eq. split; congruence.
  - split; discriminate.
Qed.

(** A clause that raises nowhere selects as [filter] and [find] do. *)
Lemma scan_total (f : Recipe -> bool) (t : Table) :
  scan (fun r => inr (f r)) t = inr (filter f t).
Proof.
  induction t as [|r t IH]; cbn [scan filter]; [reflexivity|].
  rewrite IH. now destruct (f r).
Qed.

Lemma scan_first_total (f : Recipe -> bool) (t : Table) :
  scan_first (fun r => inr (f r)) t = inr (find f t).
Proof.
  induction t as [|r t IH]; cbn [scan_first find]; [reflexivity|].
  now destruct (f r).
Qed.

Lemma scan_ext (f g : Recipe -> string + bool) (t : Table) :
  (forall r, f r = g r) -> scan f t = scan g t.
Proof.
  intros H. induction t as [|r t IH]; cbn [scan]; [reflexivity|].
  now rewrite H, IH.
Qed.

Lemma scan_first_ext (f g : Recipe -> string + bool) (t : Table) :
  (forall r, f r = g r) -> scan_first f t = scan_first g t.
Proof.
  intros H. induction t as [|r t IH]; cbn [scan_first]; [reflexivity|].
  now rewrite H, IH.
Qed.

Lemma filter_true (t : Table) : filter (fun _ => true) t = t.
Proof.
  induction t as [|r t IH]; simpl; [reflexivity|now rewrite IH].
Qed.

Lemma scan_query (t : Table) : scan (holds query) t = inr t.
Proof.
  change (holds query) with (fun _ : Recipe => @inr string bool true).
  now rewrite (scan_total (fun _ => true)), filter_true.
Qed.

Lemma scan_first_id (recipe_id : Z) (t : Table) :
  scan_first (holds (filter_by query (id_equals recipe_id))) t
  = inr (find (id_eq recipe_id) t).
Proof.
  rewrite <- scan_first_total. now apply scan_first_ext.
Qed.

(** A clause that raises on every row: the scan fails at the first row, and
    only an empty table gets through. *)
Lemma scan_failing err (t : Table) :
  scan (fun _ => inl err) t
  = match t with [] => inr [] | _ :: _ => inl err end.
Proof. now destruct t. Qed.

(** The largest key in use bounds every key. *)
Lemma fold_max_ge (l : list Z) : forall a,
  (a <= fold_left Z.max l a)%Z
  /\ (forall x, In x l -> (x <= fold_left Z.max l a)%Z).
Proof.
  induction l as [|y l IH]; intros a; simpl.
  - split; [lia|tauto].
  - destruct (IH (Z.max a y)) as [H1 H2]. split; [lia|].
    intros x [<-|Hx]; [lia|auto].
Qed.

Lemma rowid_lt_next (t : Table) r :
  In r t -> (rowid r < next_rowid t)%Z.
Proof.
  destruct t as [|r0 t]; [contradiction|]. simpl.
  destruct (fold_max_ge (map rowid t) (rowid r0)) as [H1 H2].
  intros [<-|Hr]; [lia|].
  specialize (H2 (rowid r) (in_map rowid _ _ Hr)). lia.
Qed.

Lemma increasing_snoc t : forall bound r k,
  increasing bound t -> id r = Some k -> (bound < k)%Z ->
  (forall x, In x t -> (rowid x < k)%Z) ->
  increasing bound (t ++ [r]).
Proof.
  induction t as [|x t IH]; intros bound r k Hinc Hid Hb Hlt; simpl.
  - exists k. auto.
  - destruct Hinc as (kx & Hkx & Hbx & Hinc).
    exists kx. repeat split; auto.
    apply (IH kx r k); auto.
    + specialize (Hlt x (or_introl eq_refl)).
      unfold rowid in Hlt. now rewrite Hkx in Hlt.
    + intros y Hy. apply Hlt. now right.
Qed.

Lemma next_rowid_pos t : well_formed t -> (0 < next_rowid t)%Z.
Proof.
  destruct t as [|r t]; simpl; [lia|].
  intros (k & Hk & Hpos & _).
  destruct (fold_max_ge (map rowid t) (rowid r)) as [H1 _].
  unfold rowid in H1 at 1. rewrite Hk in H1. lia.
Qed.

(** Inserting an object that carries no key keeps the table in key order:
    the scan order is the insertion order. *)
Lemma insert_row_well_formed t obj :
  id obj = None -> well_formed t -> well_formed (insert_row t obj).
Proof.
  intros Hid Hwf. unfold insert_row, well_formed. rewrite Hid.
  apply (increasing_snoc t 0%Z _ (next_rowid t)); auto.
  - now apply next_rowid_pos.
  - intros x Hx. now apply rowid_lt_next.
Qed.

Lemma flush_well_formed objs : forall t,
  Forall (fun obj => id obj = None) objs ->
  well_formed t -> well_formed (fold_left insert_row objs t).
Proof.
  induction objs as [|o objs IH]; intros t Hall Hwf; simpl; auto.
  inversion Hall; subst. apply IH; auto.
  now apply insert_row_well_formed.
Qed.

End OrmFacts.

(* ===================================================================== *)
(** ** Running the handlers *)
(* ===================================================================== *)

Section HandlerRuns.
Import Orm App.

(** [home] on any session: one SELECT, every row, nothing written. *)
Lemma home_run s :
  home s = (Returned (TemplateResponse "home.html" (home_context (store s))),
            {| store := store s; pending := pending s;
               issued := issued s ++ [SELECT] |}).
Proof.
  unfold home, all, select, bind, issue, rows, ret.
  cbn [integers query forallb store pending issued].
  now rewrite scan_query.
Qed.

(** [recipe_detail] on an identifier the driver can bind: one SELECT, then
    the page of the first row with that key or the 404. *)
Lemma recipe_detail_run recipe_id s :
  int64 recipe_id = true ->
  recipe_detail recipe_id s
  = (match find (id_eq recipe_id) (store s) with
     | None => Raised (HTTPException 404 "Recipe not found")
     | Some recipe =>
         Returned (TemplateResponse "recipe_detail.html"
                     (detail_context recipe
                        (PyStr.split_strip "," (ingredients recipe))
                        (PyStr.split_strip "." (instructions recipe))))
     end,
     {| store := store s; pending := pending s;
        issued := issued s ++ [SELECT] |}).
Proof.
  intros Hid.
  unfold recipe_detail, first, select, bind, issue, rows, ret, raise.
  cbn [integers filter_by query id_equals app forallb].
  rewrite Hid. cbn [andb store pending issued].
  rewrite scan_first_id.
  now destruct (find (id_eq recipe_id) (store s)).
Qed.

(** [recipe_detail] on any other identifier: the driver raises before a
    statement is sent. *)
Lemma recipe_detail_overflow recipe_id s :
  int64 recipe_id = false ->
  recipe_detail recipe_id s
  = (Raised (OtherError "Python int too large to convert to SQLite INTEGER"),
     s).
Proof.
  intros Hid.
  unfold recipe_detail, first, select, bind, raise.
  cbn [integers filter_by query id_equals app forallb].
  now rewrite Hid.
Qed.

(** The WHERE clause of the search on a row: the engine's error when the
    pattern is too long, else the three tests ORed. *)
Lemma search_clause search_pattern r :
  holds (filter_by query
           (or_ (or_ (ilike name search_pattern)
                     (ilike ingredients search_pattern))
                (ilike cuisine search_pattern))) r
  = if PyStr.too_complex search_pattern
    then inl "LIKE or GLOB pattern too complex"
    else inr (search_filter search_pattern r).
Proof.
  cbn [holds filter_by query or_ ilike]. rewrite too_complex_lower.
  unfold search_filter.
  destruct (PyStr.too_complex search_pattern); [reflexivity|].
  destruct (PyStr.ilike (name r) search_pattern); [reflexivity|].
  now destruct (PyStr.ilike (ingredients r) search_pattern).
Qed.

(** [search_recipes] on a non-empty query: one SELECT; the rows on which
    the clause holds, or, when the pattern is too long for the engine and
    there is a row to test it on, the engine's error. *)
Lemma search_recipes_run c q s :
  search_recipes (String c q) s
  = (if PyStr.too_complex ("%" ++ String c q ++ "%")
     then match store s with
          | [] => Returned (TemplateResponse "search_results.html"
                              (search_context [] (String c q)))
          | _ :: _ => Raised (OtherError "LIKE or GLOB pattern too complex")
          end
     else Returned (TemplateResponse "search_results.html"
                      (search_context
                         (filter (search_filter ("%" ++ String c q ++ "%"))
                            (store s))
                         (String c q))),
     {| store := store s; pending := pending s;
        issued := issued s ++ [SELECT] |}).
Proof.
  unfold search_recipes, all, select, bind, issue, rows, ret, raise.
  cbn [PyStr.truthy integers filter_by query or_ ilike app forallb
       store pending issued].
  rewrite (scan_ext _ _ _ (search_clause ("%" ++ String c q ++ "%"))).
  destruct (PyStr.too_complex ("%" ++ String c q ++ "%")).
  - rewrite scan_failing. now destruct (store s).
  - now rewrite scan_total.
Qed.

(** An accepted submission: the row is appended under the next key and the
    handler redirects. *)
Lemma submit_accepted n c p ck sv ing ins col t :
  get_db (add_recipe_submit Accepted n c p ck sv ing ins col) t
  = (Returned (RedirectResponse "/" 303),
     t ++ [mkRecipe (Some (next_rowid t)) n c p ck sv ing ins col]).
Proof.
  unfold get_db, add_recipe_submit, try_except, bind, add, commit,
    SessionLocal. cbn [store pending issued fold_left app insert_row id].
  rewrite skipn_length_app. cbn [for_each].
  unfold bind, refresh, issue, rows, ret, raise, bind.
  unfold with_id, rowid.
  cbn [store pending issued id name cuisine prep_time cook_time servings
       ingredients instructions image_color].
  destruct (find_last_some (id_eq (next_rowid t)) t
              (mkRecipe (Some (next_rowid t)) n c p ck sv ing ins col))
    as (y & Hy & _).
  { apply id_eq_true. reflexivity. }
  rewrite Hy. reflexivity.
Qed.

(** A flush that raises, whatever the exception: the handler rolls back and
    answers with the form and an error text; the table is as before. *)
Lemma submit_raised e n c p ck sv ing ins col s exc :
  fst (commit e (snd (add (mkRecipe None n c p ck sv ing ins col) s)))
    = Raised exc ->
  add_recipe_submit e n c p ck sv ing ins col s
  = (Returned (error_form
                 match exc with
                 | IntegrityError =>
                     "Failed to add recipe. Please check your input."
                 | _ => ("An unexpected error occurred: " ++ str exc)%string
                 end),
     {| store := store s; pending := [];
        issued := issued s ++ [INSERT; ROLLBACK; ROLLBACK] |}).
Proof.
  unfold add_recipe_submit, try_except, bind, add, commit, rollback, ret,
    error_form.
  destruct e; cbn [fst snd store pending issued]; intros H;
    [discriminate| |]; injection H as <-;
    cbn [store pending issued]; now rewrite <- app_assoc.
Qed.

End HandlerRuns.

(* ===================================================================== *)
(** ** Facts about form binding *)
(* ===================================================================== *)

Section BindingFacts.
Import Binding.

Lemma field_some form key v :
  field key form = Some v <-> get key form = Some v /\ v <> EmptyString.
Proof.
  unfold field. destruct (get key form) as [[|c w]|].
  - split; [discriminate|]. intros [[= <-] H]. now elim H.
  - split.
    + intros [= <-]. split; [reflexivity|discriminate].
    + now intros [[= <-] _].
  - split; [discriminate|]. now intros [H _].
Qed.

Lemma field_none form key :
  field key form = None
  <-> get key form = None \/ get key form = Some EmptyString.
Proof.
  unfold field. destruct (get key form) as [[|c w]|].
  - split; auto.
  - split; [discriminate|]. intros [H|H]; discriminate.
  - split; auto.
Qed.

Lemma required_field_some rel form key v :
  required_field rel key form = Some v -> get key form = Some v.
Proof.
  destruct rel; cbn [required_field]; [|auto].
  intros H. now apply field_some in H.
Qed.

Lemma required_field_absent rel form key :
  get key form = None -> required_field rel key form = None.
Proof.
  intros H. destruct rel; cbn [required_field]; [|exact H].
  apply field_none. now left.
Qed.




(** When a required field has no value, the endpoint is not called and the
    field is reported. *)
Lemma bind_form_missing {A} rel form
  (endpoint : string -> string -> string -> string -> string -> string ->
              string -> string -> A) key :
  In key required -> required_field rel key form = None ->
  bind_form rel form endpoint = inl (missing rel form)
  /\ In key (missing rel form).
Proof.
  intros Hin Hnone. split.
  - unfold bind_form. unfold required in Hin. simpl in Hin.
    destruct Hin as [<-|[<-|[<-|[<-|[<-|[<-|[<-|[]]]]]]]];
      rewrite ?Hnone;
      repeat match goal with
             | |- context [match required_field rel ?k form with _ => _ end] =>
                 destruct (required_field rel k form)
             end; try reflexivity; discriminate.
  - unfold missing. apply filter_In. split; [exact Hin|].
    unfold has_value. now rewrite Hnone.
Qed.

End BindingFacts.

(* ===================================================================== *)
(** ** Submitting a recipe *)
(* ===================================================================== *)

Section Submit.
Import Orm App.






(** The two behaviours of the framework on a required field sent empty:
    a release that reports it missing turns the submission away, a release
    that binds it stores the row with the empty name. *)
Lemma empty_name_by_release :
  serve Binding.empty_is_missing Accepted
    (POST_add_recipe Sample.form_with_empty_name) []
  = (RequestValidationError ["name"], [])
  /\ exists r,
       serve Binding.empty_is_value Accepted
         (POST_add_recipe Sample.form_with_empty_name) []
       = (RedirectResponse "/" 303, [r])
       /\ name r = EmptyString.
Proof.
  split; [reflexivity|]. eexists. split; reflexivity.
Qed.

End Submit.

Section SubmitColour.
Import Orm App.




End SubmitColour.

Section SubmitFailures.
Import Orm App.

(** C6.  When the insert of an add-recipe submission raises an integrity
    error, the handler rolls back and returns the add form with the error
    text "Failed to add recipe. Please check your input." rather than a
    redirect; the table is exactly what it was and nothing is left pending
    in the session. *)
Theorem integrity_error_rolls_back e n c p ck sv ing ins col s :
  fst (commit e (snd (add (mkRecipe None n c p ck sv ing ins col) s)))
    = Raised IntegrityError ->
  exists s',
    add_recipe_submit e n c p ck sv ing ins col s
      = (Returned
           (error_form "Failed to add recipe. Please check your input."),
         s')
    /\ store s' = store s
    /\ pending s' = []
    /\ respond (fst (add_recipe_submit e n c p ck sv ing ins col s))
       = TemplateResponse "add_recipe.html"
           (form_context None
              (Some "Failed to add recipe. Please check your input."))
    /\ forall url code,
         respond (fst (add_recipe_submit e n c p ck sv ing ins col s))
         <> RedirectResponse url code.
Proof.
  intros H. rewrite (submit_raised _ _ _ _ _ _ _ _ _ _ _ H).
  eexists. split; [reflexivity|]. cbn [store pending fst respond].
  repeat split. intros url code. discriminate.
Qed.

Lemma integrity_error_rolls_back_witness :
  serve Binding.empty_is_missing Rejected
    (POST_add_recipe Sample.full_form) [Sample.sushi]
  = (error_form "Failed to add recipe. Please check your input.",
     [Sample.sushi]).
Proof.
  destruct (integrity_error_rolls_back Rejected
              "Miso Soup" "Japanese" "5 min" "10 min" "2"
              "Dashi, Miso, Tofu, Wakame" "1. Heat dashi. 2. Whisk in miso."
              "#112233" (SessionLocal [Sample.sushi]) eq_refl)
    as (s' & Hrun & Hstore & _).
  unfold serve.
  change (Binding.bind_form Binding.empty_is_missing Sample.full_form
            (add_recipe_submit Rejected))
    with (@inr (list string) _
            (add_recipe_submit Rejected
               "Miso Soup" "Japanese" "5 min" "10 min" "2"
               "Dashi, Miso, Tofu, Wakame" "1. Heat dashi. 2. Whisk in miso."
               "#112233")).
  unfold get_db. rewrite Hrun. cbn [respond]. now rewrite Hstore.
Defined.

(** C7, amended.  A submission of the add form in which one of the seven
    required fields is missing is turned away when the form is bound,
    before the handler body runs: the answer is the validation error with
    status 422 that names the field, a client error and not a server
    fault; the add form is not rendered again; the table is unchanged,
    whatever the engine would have answered and under either release of
    the framework. *)
Theorem missing_required_field_rejected rel e form t key :
  In key Binding.required ->
  Binding.get key form = None ->
  exists missing,
    serve rel e (POST_add_recipe form) t = (RequestValidationError missing, t)
    /\ In key missing
    /\ status (fst (serve rel e (POST_add_recipe form) t)) = Some 422%Z
    /\ (forall text,
          fst (serve rel e (POST_add_recipe form) t) <> error_form text)
    /\ snd (serve rel e (POST_add_recipe form) t) = t.
Proof.
  intros Hin Hmiss. apply (required_field_absent rel) in Hmiss.
  destruct (bind_form_missing rel form (add_recipe_submit e) key Hin Hmiss)
    as [Hbind Hkey].
  exists (Binding.missing rel form). unfold serve. rewrite Hbind.
  cbn [fst snd status]. repeat split; [exact Hkey|].
  intros text. discriminate.
Qed.

Lemma missing_required_field_rejected_witness :
  exists missing,
    serve Binding.empty_is_value Accepted
      (POST_add_recipe Sample.form_without_name) [Sample.sushi]
      = (RequestValidationError missing, [Sample.sushi])
    /\ In "name" missing
    /\ status (fst (serve Binding.empty_is_value Accepted
                      (POST_add_recipe Sample.form_without_name)
                      [Sample.sushi])) = Some 422%Z
    /\ (forall text,
          fst (serve Binding.empty_is_value Accepted
                 (POST_add_recipe Sample.form_without_name) [Sample.sushi])
          <> error_form text)
    /\ snd (serve Binding.empty_is_value Accepted
              (POST_add_recipe Sample.form_without_name)
              [Sample.sushi]) = [Sample.sushi].
Proof.
  exact (missing_required_field_rejected Binding.empty_is_value Accepted
           Sample.form_without_name [Sample.sushi] "name"
           (or_introl eq_refl) eq_refl).
Defined.

(** C7 as stated fails: a submission without a name is not answered with
    the add form and an error message. *)
Lemma missing_field_not_rendered_as_form :
  Binding.get "name" Sample.form_without_name = None
  /\ forall rel e text,
       fst (serve rel e (POST_add_recipe Sample.form_without_name) [])
       <> error_form text.
Proof.
  split; [reflexivity|]. intros rel e text. destruct rel; discriminate.
Qed.

End SubmitFailures.

(* ===================================================================== *)
(** ** Seeding *)
(* ===================================================================== *)

Section Seeding.
Import Orm App.

Lemma seed_nonempty e r t :
  seed_database e (SessionLocal (r :: t))
  = (Returned tt,
     {| store := r :: t; pending := []; issued := [SELECT] |}).
Proof.
  unfold seed_database, count, select, bind, issue, rows, ret, SessionLocal.
  cbn [integers query forallb store pending issued app].
  now rewrite scan_query.
Qed.

Lemma seed_empty_accepted :
  seed_database Accepted (SessionLocal [])
  = (Returned tt,
     {| store := demo_rows; pending := [];
        issued := [SELECT] ++ repeat INSERT 8 ++ [COMMIT] |}).
Proof. reflexivity. Qed.

(** C2.  Seeding at start-up.  On an empty table it inserts the eight demo
    rows, in the order of the fixed list and under the keys 1 to 8, and
    commits.  On a table that holds any row it changes nothing, whatever
    the engine would answer.  So seeding twice leaves the same table as
    seeding once, from every table, and after an empty table was seeded
    the number of rows stays at the eight of the fixed list. *)
Theorem seed_database_idempotent :
  seed_database Accepted (SessionLocal [])
    = (Returned tt,
       {| store := demo_rows; pending := [];
          issued := [SELECT] ++ repeat INSERT 8 ++ [COMMIT] |})
  /\ on_startup Accepted [] = (Returned tt, demo_rows)
  /\ map (with_id 0) demo_rows = map (with_id 0) recipes_data
  /\ (forall e r t, on_startup e (r :: t) = (Returned tt, r :: t))
  /\ (forall e t,
        snd (on_startup e (snd (on_startup e t))) = snd (on_startup e t))
  /\ (forall e t,
        on_startup e (snd (on_startup Accepted t))
        = (Returned tt, snd (on_startup Accepted t)))
  /\ (forall e,
        List.length (snd (on_startup e (snd (on_startup Accepted []))))
        = List.length recipes_data)
  /\ List.length recipes_data = 8.
Proof.
  assert (Hne : forall e r t, on_startup e (r :: t) = (Returned tt, r :: t)).
  { intros e r t. unfold on_startup. now rewrite seed_nonempty. }
  split; [reflexivity|]. split; [reflexivity|]. split; [reflexivity|].
  split; [exact Hne|].
  split.
  { intros e [|r t].
    - destruct e; reflexivity.
    - rewrite Hne. cbn [snd]. now rewrite Hne. }
  split.
  { intros e [|r t].
    - reflexivity.
    - rewrite Hne. cbn [snd]. now rewrite Hne. }
  split; [|reflexivity].
  intros e. reflexivity.
Qed.

(** Seeding leaves the table in key order. *)
Lemma on_startup_well_formed e t :
  well_formed t -> well_formed (snd (on_startup e t)).
Proof.
  intros Hwf. destruct t as [|r t].
  - destruct e; simpl; auto.
    unfold well_formed. simpl. repeat (eexists; split; [reflexivity|split; [lia|]]).
    exact I.
  - unfold on_startup. now rewrite seed_nonempty.
Qed.

End Seeding.

(* ===================================================================== *)
(** ** The read handlers *)
(* ===================================================================== *)

Section Reads.
Import Orm App.

Lemma serve_home rel e t :
  serve rel e GET_home t
  = (TemplateResponse "home.html" (home_context t), t).
Proof. unfold serve, get_db. now rewrite home_run. Qed.

Lemma serve_recipe rel e recipe_id t :
  serve rel e (GET_recipe recipe_id) t
  = (if int64 recipe_id then
       match find (id_eq recipe_id) t with
       | None => HTTPError 404 "Recipe not found"
       | Some recipe =>
           TemplateResponse "recipe_detail.html"
             (detail_context recipe
                (PyStr.split_strip "," (ingredients recipe))
                (PyStr.split_strip "." (instructions recipe)))
       end
     else InternalServerError, t).
Proof.
  unfold serve, get_db. destruct (int64 recipe_id) eqn:Hid.
  - rewrite (recipe_detail_run _ _ Hid).
    cbn [store SessionLocal]. now destruct (find (id_eq recipe_id) t).
  - now rewrite (recipe_detail_overflow _ _ Hid).
Qed.

Lemma search_recipes_store q s : store (snd (search_recipes q s)) = store s.
Proof.
  destruct q as [|c q]; [reflexivity|]. now rewrite search_recipes_run.
Qed.

Lemma serve_search_store rel e q t : snd (serve rel e (GET_search q) t) = t.
Proof.
  unfold serve, get_db.
  pose proof (search_recipes_store
                match q with Some q0 => q0 | None => EmptyString end
                (SessionLocal t)) as H.
  destruct (search_recipes _ _) as [o s]. exact H.
Qed.

(** C3, amended.  The two display lists of the detail page are the
    fragments of the ingredients text between commas, and of the
    instructions text between periods, each with the white space at its
    ends removed, the empty ones dropped and the order kept.  For
    "Pasta, Eggs, Pecorino Romano" the list is "Pasta", "Eggs",
    "Pecorino Romano"; for "1. Cook pasta. 2. Fry guanciale." it is "1",
    "Cook pasta", "2", "Fry guanciale", the period after a step number
    being a separator like any other. *)
Theorem detail_display_lists :
  (forall sep text,
     exists parts stripped,
       PyStr.join sep parts = text
       /\ Forall (fun part => PyStr.mem sep part = false) parts
       /\ Forall2 PyStr.trim_of parts stripped
       /\ PyStr.split_strip sep text = filter PyStr.truthy stripped)
  /\ (forall recipe_id s,
        fst (recipe_detail recipe_id s)
        = if int64 recipe_id then
            match find (id_eq recipe_id) (store s) with
            | None => Raised (HTTPException 404 "Recipe not found")
            | Some recipe =>
                Returned
                  (TemplateResponse "recipe_detail.html"
                     (detail_context recipe
                        (PyStr.split_strip "," (ingredients recipe))
                        (PyStr.split_strip "." (instructions recipe))))
            end
          else
            Raised (OtherError
                      "Python int too large to convert to SQLite INTEGER"))
  /\ PyStr.split_strip "," "Pasta, Eggs, Pecorino Romano"
     = ["Pasta"; "Eggs"; "Pecorino Romano"]
  /\ PyStr.split_strip "." "1. Cook pasta. 2. Fry guanciale."
     = ["1"; "Cook pasta"; "2"; "Fry guanciale"].
Proof.
  split; [|split; [|split; reflexivity]].
  - intros sep text.
    exists (PyStr.split sep text), (map PyStr.strip (PyStr.split sep text)).
    split; [apply join_split|]. split; [apply split_no_sep|].
    split; [|apply map_filter_strip].
    induction (PyStr.split sep text) as [|x l IH]; simpl; constructor; auto.
    apply strip_trim_of.
  - intros recipe_id s. destruct (int64 recipe_id) eqn:Hid.
    + now rewrite (recipe_detail_run _ _ Hid).
    + now rewrite (recipe_detail_overflow _ _ Hid).
Qed.

(** C3 as stated fails in its second example: the instructions text does
    not give the two numbered steps. *)
Lemma instructions_example_splits_step_numbers :
  PyStr.split_strip "." "1. Cook pasta. 2. Fry guanciale."
  <> ["1. Cook pasta"; "2. Fry guanciale"].
Proof. discriminate. Qed.

(** C5, at the failing input.  The identifier 2^63 is carried by no row of
    the seeded table, and of no table is its detail page answered with the
    404: the driver cannot hand the integer to the engine, the exception
    it raises is not caught, and the answer is a server fault with status
    500.  The table is unchanged. *)
Theorem recipe_detail_overflow_is_server_fault :
  (forall r, In r demo_rows -> id r <> Some (2 ^ 63)%Z)
  /\ forall rel e t,
       serve rel e (GET_recipe (2 ^ 63)) t = (InternalServerError, t)
       /\ status (fst (serve rel e (GET_recipe (2 ^ 63)) t)) = Some 500%Z
       /\ fst (serve rel e (GET_recipe (2 ^ 63)) t)
          <> HTTPError 404 "Recipe not found".
Proof.
  split.
  - intros r Hr. simpl in Hr.
    repeat (destruct Hr as [<-|Hr]; [discriminate|]). elim Hr.
  - intros rel e t. rewrite serve_recipe.
    change (int64 (2 ^ 63)) with false. cbn [fst status].
    repeat split. discriminate.
Qed.

(** For an identifier that fits in 64 bits: when no row carries it the
    detail page is answered with the 404 "Recipe not found"; when some row
    carries it, with the detail template of a row with that identifier,
    and not with an error.  The table is unchanged either way. *)
Theorem recipe_detail_not_found_iff rel e t recipe_id :
  int64 recipe_id = true ->
  ((forall r, In r t -> id r <> Some recipe_id) ->
     serve rel e (GET_recipe recipe_id) t
       = (HTTPError 404 "Recipe not found", t)
     /\ status (fst (serve rel e (GET_recipe recipe_id) t)) = Some 404%Z)
  /\ (forall r, In r t -> id r = Some recipe_id ->
        exists recipe,
          In recipe t /\ id recipe = Some recipe_id
          /\ serve rel e (GET_recipe recipe_id) t
             = (TemplateResponse "recipe_detail.html"
                  (detail_context recipe
                     (PyStr.split_strip "," (ingredients recipe))
                     (PyStr.split_strip "." (instructions recipe))), t)
          /\ status (fst (serve rel e (GET_recipe recipe_id) t))
             = Some 200%Z).
Proof.
  intros Hrange. rewrite serve_recipe, Hrange. split.
  - intros Hnone.
    assert (Hfind : find (id_eq recipe_id) t = None).
    { apply find_none_iff. intros x Hx.
      destruct (id_eq recipe_id x) eqn:E; [|reflexivity].
      apply id_eq_true in E. now elim (Hnone x Hx). }
    rewrite Hfind. split; reflexivity.
  - intros r Hr Hid.
    destruct (find (id_eq recipe_id) t) as [recipe|] eqn:Hfind.
    + apply find_some in Hfind as [Hin Heq].
      exists recipe. apply id_eq_true in Heq. repeat split; auto.
    + apply (proj1 (find_none_iff _ _)) with (x := r) in Hfind; [|exact Hr].
      apply id_eq_true in Hid. congruence.
Qed.

Lemma recipe_detail_not_found_iff_witness :
  serve Binding.empty_is_missing Accepted (GET_recipe 9) demo_rows
    = (HTTPError 404 "Recipe not found", demo_rows)
  /\ exists recipe,
       id recipe = Some 4%Z
       /\ status (fst (serve Binding.empty_is_missing Accepted
                         (GET_recipe 4) demo_rows)) = Some 200%Z.
Proof.
  split.
  - apply (proj1 (recipe_detail_not_found_iff Binding.empty_is_missing
                    Accepted demo_rows 9 eq_refl)).
    intros r Hr. simpl in Hr.
    repeat (destruct Hr as [<-|Hr]; [discriminate|]). elim Hr.
  - destruct (proj2 (recipe_detail_not_found_iff Binding.empty_is_missing
                       Accepted demo_rows 4 eq_refl)
                (nth 3 demo_rows Sample.sushi))
      as (recipe & _ & Hid & _ & Hstatus);
      [simpl; tauto|reflexivity|].
    exists recipe. split; assumption.
Defined.

(** C8.  The home page is rendered from every row of the table, none left
    out, in the order of the table, which is the order of insertion: a row
    added by a submission is listed last, after the rows listed before,
    and the eight demo rows of a seeded empty table are listed in the
    order of the fixed list. *)
Theorem home_lists_all_in_insertion_order :
  (forall rel e t,
     serve rel e GET_home t
     = (TemplateResponse "home.html" (home_context t), t))
  /\ (forall rel e n c p ck sv ing ins col t,
        fst (serve rel e GET_home
               (snd (get_db (add_recipe_submit Accepted n c p ck sv ing ins col)
                       t)))
        = TemplateResponse "home.html"
            (home_context
               (t ++ [mkRecipe (Some (next_rowid t)) n c p ck sv ing ins col])))
  /\ (forall rel e,
        exists listed,
          fst (serve rel e GET_home (snd (on_startup Accepted [])))
            = TemplateResponse "home.html" (home_context listed)
          /\ map name listed
             = ["Spaghetti Carbonara"; "Chicken Tikka Masala"; "Beef Tacos";
                "Sushi Rolls"; "French Onion Soup"; "Pad Thai";
                "Mediterranean Salad"; "Classic Lasagna"]
          /\ map cuisine listed
             = ["Italian"; "Indian"; "Mexican"; "Japanese"; "French"; "Thai";
                "Mediterranean"; "Italian"]
          /\ map name listed = map name recipes_data).
Proof.
  split; [apply serve_home|]. split.
  - intros. now rewrite serve_home, submit_accepted.
  - intros rel e. exists demo_rows. rewrite serve_home. repeat split.
Qed.

(** C9.  The five read requests (health check, home, detail, add form,
    search) leave the table as it was, from every table and for every
    identifier and query. *)
Theorem read_requests_preserve_store rel e t recipe_id query_ :
  snd (serve rel e GET_health t) = t
  /\ snd (serve rel e GET_home t) = t
  /\ snd (serve rel e (GET_recipe recipe_id) t) = t
  /\ snd (serve rel e GET_add_recipe t) = t
  /\ snd (serve rel e (GET_search query_) t) = t.
Proof.
  split; [reflexivity|]. split; [now rewrite serve_home|].
  split; [now rewrite serve_recipe|]. split; [reflexivity|].
  apply serve_search_store.
Qed.

End Reads.

(* ===================================================================== *)
(** ** Search *)
(* ===================================================================== *)

Section Search.
Import Orm App.

(** On a query without wildcard and without NUL the WHERE clause holds of
    the rows in which the query occurs, up to case, in one of the three
    columns, each read as far as its first NUL. *)
Lemma search_filter_literal q r :
  PyStr.literal q = true -> PyStr.nul_free q = true ->
  (search_filter ("%" ++ q ++ "%") r = true
   <-> PyStr.ci_substring q (PyStr.c_string (name r))
       \/ PyStr.ci_substring q (PyStr.c_string (ingredients r))
       \/ PyStr.ci_substring q (PyStr.c_string (cuisine r))).
Proof.
  intros Hq Hn. unfold search_filter.
  rewrite !orb_true_iff, !(ilike_contains q _ Hq Hn). tauto.
Qed.

(** C4, amended.  With the empty query the search handler returns the
    empty result list and sends no statement at all.  With a non-empty
    query that contains no [%], no [_] and no NUL, and whose pattern, the
    query between two [%], is at most 50000 bytes long, it sends one
    SELECT and returns, in table order, exactly the rows in which the
    query occurs up to ASCII case in the name, or in the ingredients, or
    in the cuisine, each of the three read as far as its first NUL if it
    has one.  (A [%] or [_] in the query is a wildcard of the pattern.) *)
Theorem search_recipes_literal_query q s :
  q <> EmptyString -> PyStr.literal q = true -> PyStr.nul_free q = true ->
  PyStr.too_complex ("%" ++ q ++ "%") = false ->
  search_recipes EmptyString s
    = (Returned (TemplateResponse "search_results.html"
                   (search_context [] EmptyString)), s)
  /\ exists found f,
       search_recipes q s
         = (Returned (TemplateResponse "search_results.html"
                        (search_context found q)),
            {| store := store s; pending := pending s;
               issued := issued s ++ [SELECT] |})
       /\ found = filter f (store s)
       /\ (forall r, f r = true <->
             PyStr.ci_substring q (PyStr.c_string (name r))
             \/ PyStr.ci_substring q (PyStr.c_string (ingredients r))
             \/ PyStr.ci_substring q (PyStr.c_string (cuisine r)))
       /\ (forall r, In r found <->
             In r (store s)
             /\ (PyStr.ci_substring q (PyStr.c_string (name r))
                 \/ PyStr.ci_substring q (PyStr.c_string (ingredients r))
                 \/ PyStr.ci_substring q (PyStr.c_string (cuisine r)))).
Proof.
  intros Hne Hq Hn Hlen. split.
  - destruct s; reflexivity.
  - destruct q as [|c q]; [now elim Hne|].
    exists (filter (search_filter ("%" ++ String c q ++ "%")) (store s)),
           (search_filter ("%" ++ String c q ++ "%")).
    split; [now rewrite search_recipes_run, Hlen|]. split; [reflexivity|].
    split.
    + intros r. apply (search_filter_literal (String c q) r Hq Hn).
    + intros r. rewrite filter_In.
      now rewrite (search_filter_literal (String c q) r Hq Hn).
Qed.

Lemma search_recipes_literal_query_witness :
  exists found,
    fst (search_recipes "SUSHI" (SessionLocal demo_rows))
      = Returned (TemplateResponse "search_results.html"
                    (search_context found "SUSHI"))
    /\ In (with_id 4 Sample.sushi) found.
Proof.
  destruct (search_recipes_literal_query "SUSHI" (SessionLocal demo_rows))
    as (_ & found & f & Hrun & _ & _ & Hin);
    [discriminate|reflexivity|reflexivity|reflexivity|].
  exists found. split; [now rewrite Hrun|].
  apply Hin. split; [simpl; tauto|].
  left. apply ci_substringb_spec. reflexivity.
Defined.

(** C4 as stated fails: the query "S_shi" is not a substring, in any
    case, of the name, the ingredients or the cuisine of the row, and the
    search returns the row. *)
Lemma search_wildcard_matches_non_substring :
  fst (search_recipes "S_shi" (SessionLocal [Sample.sushi]))
    = Returned (TemplateResponse "search_results.html"
                  (search_context [Sample.sushi] "S_shi"))
  /\ ~ (PyStr.ci_substring "S_shi" (name Sample.sushi)
        \/ PyStr.ci_substring "S_shi" (ingredients Sample.sushi)
        \/ PyStr.ci_substring "S_shi" (cuisine Sample.sushi)).
Proof.
  split; [reflexivity|].
  intros [H|[H|H]]; apply ci_substringb_spec in H; discriminate.
Qed.

End Search.

(* ===================================================================== *)
(** ** The table stays in key order *)
(* ===================================================================== *)

Section KeyOrder.
Import Orm App.

Lemma bind_form_cases {A} rel form
  (endpoint : string -> string -> string -> string -> string -> string ->
              string -> string -> A) :
  Binding.bind_form_result_is_call rel form endpoint
  \/ Binding.bind_form rel form endpoint = inl (Binding.missing rel form).
Proof.
  unfold Binding.bind_form_result_is_call, Binding.bind_form.
  repeat match goal with
         | |- context [match Binding.required_field rel ?k form
                       with _ => _ end] =>
             destruct (Binding.required_field rel k form)
         end; auto.
  left. repeat eexists.
Qed.

Lemma submit_store e n c p ck sv ing ins col t :
  snd (get_db (add_recipe_submit e n c p ck sv ing ins col) t)
  = match e with
    | Accepted =>
        insert_row t (mkRecipe None n c p ck sv ing ins col)
    | _ => t
    end.
Proof.
  destruct e.
  - now rewrite submit_accepted.
  - unfold get_db.
    now rewrite (submit_raised Rejected n c p ck sv ing ins col
                   (SessionLocal t) IntegrityError eq_refl).
  - unfold get_db.
    now rewrite (submit_raised (Failed description) n c p ck sv ing ins col
                   (SessionLocal t) (OtherError description) eq_refl).
Qed.

(** No request takes a table out of key order: with the keys handed out
    by the engine, the order of a scan is the order of insertion. *)
Lemma serve_well_formed rel e req t :
  well_formed t -> well_formed (snd (serve rel e req t)).
Proof.
  intros Hwf. destruct req as [| |recipe_id| |form|q].
  - exact Hwf.
  - now rewrite serve_home.
  - now rewrite serve_recipe.
  - exact Hwf.
  - unfold serve.
    destruct (bind_form_cases rel form (add_recipe_submit e))
      as [(n & c & p & ck & sv & ing & ins & col & ->)| ->]; [|exact Hwf].
    pose proof (submit_store e n c p ck sv ing ins col t) as Hs.
    destruct (get_db _ t) as [o t']. cbn [snd] in *. subst t'.
    destruct e; auto. now apply insert_row_well_formed.
  - now rewrite serve_search_store.
Qed.

End KeyOrder.

(* ===================================================================== *)
(** ** More on the display lists *)
(* ===================================================================== *)

Section DisplayLists.
Import PyStr.

Lemma mem_app c (a b : string) : mem c (a ++ b) = mem c a || mem c b.
Proof.
  induction a as [|d a IH]; simpl; [reflexivity|].
  now rewrite IH, orb_assoc.
Qed.

Lemma trim_of_no_sep sep p q :
  trim_of p q -> mem sep p = false -> mem sep q = false.
Proof.
  intros (l & r & -> & _) H.
  rewrite !mem_app in H.
  apply orb_false_iff in H as [_ H].
  now apply orb_false_iff in H as [H _].
Qed.

Lemma truthy_nonempty s : truthy s = true <-> s <> EmptyString.
Proof. destruct s; simpl; split; congruence. Qed.

(** Every entry of a display list is non-empty, has no white space at
    either end and does not contain the separator. *)
Theorem split_strip_entries sep text :
  Forall (fun entry =>
            entry <> EmptyString /\ mem sep entry = false /\ trimmed entry)
    (split_strip sep text).
Proof.
  unfold split_strip. rewrite map_filter_strip.
  pose proof (split_no_sep sep text) as Hsep.
  induction (split sep text) as [|p l IH]; simpl; [constructor|].
  inversion Hsep as [|? ? Hp Hl]; subst.
  destruct (truthy (strip p)) eqn:Ht; [|now apply IH].
  constructor; [|now apply IH].
  pose proof (strip_trim_of p) as Htrim.
  split; [now apply truthy_nonempty|].
  split; [exact (trim_of_no_sep sep p _ Htrim Hp)|].
  now destruct Htrim as (_ & _ & _ & _ & _ & H).
Qed.

Lemma lstrip_all_space s : all_space s = true -> lstrip s = EmptyString.
Proof.
  induction s as [|c s IH]; simpl; [reflexivity|].
  intros H. apply andb_true_iff in H as [Hc Hs]. now rewrite Hc, IH.
Qed.

Lemma split_blank sep text :
  every (fun c => Ascii.eqb c sep || isspace c) text = true ->
  Forall (fun p => all_space p = true) (split sep text).
Proof.
  induction text as [|c s IH]; simpl.
  - intros _. constructor; [reflexivity|constructor].
  - intros H. apply andb_true_iff in H as [Hc Hs]. specialize (IH Hs).
    destruct (Ascii.eqb c sep); [now constructor|].
    simpl in Hc.
    destruct (split sep s) as [|h t] eqn:E.
    + exfalso. exact (split_nonempty sep s E).
    + inversion IH; subst. constructor; [|assumption].
      simpl. now rewrite Hc.
Qed.

(** A text made of separators and white space only, the empty text among
    them, gives the empty display list. *)
Theorem split_strip_blank sep text :
  every (fun c => Ascii.eqb c sep || isspace c) text = true ->
  split_strip sep text = [].
Proof.
  intros H. apply split_blank in H. unfold split_strip.
  induction (split sep text) as [|p l IH]; simpl; [reflexivity|].
  inversion H as [|? ? Hp Hl]; subst.
  assert (Hs : strip p = EmptyString).
  { unfold strip. now rewrite (lstrip_all_space p Hp). }
  rewrite Hs. simpl. now apply IH.
Qed.

Lemma split_strip_blank_witness :
  split_strip "," " , ,, " = [] /\ split_strip "." "" = [].
Proof.
  split.
  - apply split_strip_blank. reflexivity.
  - apply split_strip_blank. reflexivity.
Defined.

End DisplayLists.

(* ===================================================================== *)
(** ** More on the search pattern *)
(* ===================================================================== *)

Section SearchPattern.
Import PyStr.

(** A pattern made of [%] only matches every text. *)
Lemma pattern_all_percent p : forall s,
  p <> EmptyString -> every (Ascii.eqb percent) p = true ->
  pattern_compare p s = true.
Proof.
  induction p as [|c p IH]; intros s Hne H; [now elim Hne|].
  cbn [every] in H. apply andb_true_iff in H as [Hc Hp].
  apply Ascii.eqb_eq in Hc. subst c.
  destruct p as [|d p]; [apply like_only_percent|].
  apply like_percent. exists EmptyString, s. split; [reflexivity|].
  apply IH; [discriminate|exact Hp].
Qed.

Lemma every_percent_lower q :
  every (Ascii.eqb percent) q = true -> lower q = q.
Proof.
  induction q as [|c q IH]; cbn [every lower]; [reflexivity|].
  intros H. apply andb_true_iff in H as [Hc Hq].
  apply Ascii.eqb_eq in Hc. subst c. now rewrite (IH Hq).
Qed.

Lemma every_percent_c_string q :
  every (Ascii.eqb percent) q = true -> c_string q = q.
Proof.
  induction q as [|c q IH]; cbn [every c_string]; [reflexivity|].
  intros H. apply andb_true_iff in H as [Hc Hq].
  apply Ascii.eqb_eq in Hc. subst c. now rewrite (IH Hq).
Qed.

Lemma every_app p (a b : string) :
  every p (a ++ b) = every p a && every p b.
Proof.
  induction a as [|c a IH]; simpl; [reflexivity|].
  now rewrite IH, andb_assoc.
Qed.

Lemma ilike_all_percent q column :
  every (Ascii.eqb percent) q = true ->
  ilike column ("%" ++ q ++ "%") = true.
Proof.
  intros H. unfold ilike, like.
  assert (Hall : every (Ascii.eqb percent) ("%" ++ q ++ "%") = true).
  { change ("%" ++ q ++ "%")%string with (String percent (q ++ "%")).
    cbn [every]. rewrite every_app, H. reflexivity. }
  rewrite (every_percent_lower _ Hall), (every_percent_c_string _ Hall).
  apply pattern_all_percent; [discriminate|exact Hall].
Qed.

(** Two queries equal up to ASCII case give the same pattern test and the
    same pattern length. *)
Lemma ilike_query_case q q' column :
  lower q = lower q' ->
  ilike column ("%" ++ q ++ "%") = ilike column ("%" ++ q' ++ "%").
Proof.
  intros H. unfold ilike.
  change ("%" ++ q ++ "%")%string with (String percent (q ++ "%")).
  change ("%" ++ q' ++ "%")%string with (String percent (q' ++ "%")).
  cbn [lower]. now rewrite !lower_app, H.
Qed.

Lemma too_complex_query_case q q' :
  lower q = lower q' ->
  too_complex ("%" ++ q ++ "%") = too_complex ("%" ++ q' ++ "%").
Proof.
  intros H.
  rewrite <- (too_complex_lower ("%" ++ q ++ "%")),
          <- (too_complex_lower ("%" ++ q' ++ "%")).
  change ("%" ++ q ++ "%")%string with (String percent (q ++ "%")).
  change ("%" ++ q' ++ "%")%string with (String percent (q' ++ "%")).
  cbn [lower]. now rewrite !lower_app, H.
Qed.

End SearchPattern.

(* ===================================================================== *)
(** ** Submissions: every outcome *)
(* ===================================================================== *)

Section SubmitOutcomes.
Import Orm App.

(** When the flush of a submission raises anything but an integrity error,
    the handler rolls back and returns the add form with the text
    "An unexpected error occurred: " followed by the text of the
    exception; the table is as before and nothing stays pending. *)
Theorem unexpected_error_rolls_back e n c p ck sv ing ins col s exc :
  fst (commit e (snd (add (mkRecipe None n c p ck sv ing ins col) s)))
    = Raised exc ->
  exc <> IntegrityError ->
  exists s',
    add_recipe_submit e n c p ck sv ing ins col s
      = (Returned
           (error_form ("An unexpected error occurred: " ++ str exc)), s')
    /\ store s' = store s
    /\ pending s' = [].
Proof.
  intros H Hexc. rewrite (submit_raised _ _ _ _ _ _ _ _ _ _ _ H).
  exists {| store := store s; pending := [];
            issued := issued s ++ [INSERT; ROLLBACK; ROLLBACK] |}.
  split; [|split; reflexivity].
  destruct exc; [reflexivity|now elim Hexc|reflexivity].
Qed.

Lemma unexpected_error_rolls_back_witness :
  exists s',
    add_recipe_submit (Failed "disk I/O error") "Miso Soup" "Japanese"
      "5 min" "10 min" "2" "Dashi" "Heat." "#112233"
      (SessionLocal [Sample.sushi])
    = (Returned
         (error_form "An unexpected error occurred: disk I/O error"), s')
    /\ store s' = [Sample.sushi]
    /\ pending s' = [].
Proof.
  apply (unexpected_error_rolls_back (Failed "disk I/O error") "Miso Soup"
           "Japanese" "5 min" "10 min" "2" "Dashi" "Heat." "#112233"
           (SessionLocal [Sample.sushi]) (OtherError "disk I/O error")).
  - reflexivity.
  - discriminate.
Defined.

Lemma submit_response e n c p ck sv ing ins col t :
  fst (get_db (add_recipe_submit e n c p ck sv ing ins col) t)
  = Returned
      match e with
      | Accepted => RedirectResponse "/" 303
      | Rejected =>
          error_form "Failed to add recipe. Please check your input."
      | Failed d => error_form ("An unexpected error occurred: " ++ d)
      end.
Proof.
  destruct e.
  - now rewrite submit_accepted.
  - unfold get_db.
    now rewrite (submit_raised Rejected n c p ck sv ing ins col
                   (SessionLocal t) IntegrityError eq_refl).
  - unfold get_db.
    now rewrite (submit_raised (Failed description) n c p ck sv ing ins col
                   (SessionLocal t) (OtherError description) eq_refl).
Qed.

Lemma serve_submit_cases rel e form t :
  (fst (serve rel e (POST_add_recipe form) t)
     = RequestValidationError (Binding.missing rel form)
   /\ Binding.missing rel form <> []
   /\ snd (serve rel e (POST_add_recipe form) t) = t)
  \/ (e = Accepted
      /\ fst (serve rel e (POST_add_recipe form) t) = RedirectResponse "/" 303
      /\ exists row, snd (serve rel e (POST_add_recipe form) t) = t ++ [row])
  \/ (e <> Accepted
      /\ (exists text,
            fst (serve rel e (POST_add_recipe form) t) = error_form text)
      /\ snd (serve rel e (POST_add_recipe form) t) = t).
Proof.
  unfold serve.
  destruct (bind_form_cases rel form (add_recipe_submit e))
    as [(n & c & p & ck & sv & ing & ins & col & Hb)|Hb].
  - right. rewrite Hb.
    pose proof (submit_response e n c p ck sv ing ins col t) as Hr.
    pose proof (submit_store e n c p ck sv ing ins col t) as Hs.
    destruct (get_db _ t) as [o t']. cbn [fst snd] in *. subst o t'.
    destruct e; cbn [respond].
    + left. repeat split. eexists. reflexivity.
    + right. split; [discriminate|]. split; [eexists|]; reflexivity.
    + right. split; [discriminate|]. split; [eexists|]; reflexivity.
  - left. rewrite Hb. cbn [fst snd]. repeat split.
    unfold Binding.bind_form in Hb.
    repeat match type of Hb with
           | context [match Binding.required_field rel ?k form
                      with _ => _ end] =>
               let E := fresh "E" in
               destruct (Binding.required_field rel k form) eqn:E
           end; try discriminate;
      intros Hnil;
      match goal with
      | E : Binding.required_field rel ?k form = None |- _ =>
          assert (Hin : In k (Binding.missing rel form))
            by (apply filter_In; split;
                [unfold Binding.required; simpl; tauto
                |unfold Binding.has_value; now rewrite E]);
          rewrite Hnil in Hin; exact Hin
      end.
Qed.


End SubmitOutcomes.

(* ===================================================================== *)
(** ** Insert, then look up *)
(* ===================================================================== *)

Section InsertLookup.
Import Orm App.

Lemma find_snoc {A} (f : A -> bool) (l : list A) (x : A) :
  find f (l ++ [x])
  = match find f l with
    | Some y => Some y
    | None => if f x then Some x else None
    end.
Proof.
  induction l as [|a l IH]; simpl; [reflexivity|].
  now destruct (f a).
Qed.

(** No row carries the key the engine hands out next. *)
Lemma find_next_rowid (t : Table) : find (id_eq (next_rowid t)) t = None.
Proof.
  apply find_none_iff. intros x Hx.
  destruct (id_eq (next_rowid t) x) eqn:E; [|reflexivity].
  apply id_eq_true in E. pose proof (rowid_lt_next t x Hx) as Hlt.
  unfold rowid in Hlt. rewrite E in Hlt. lia.
Qed.

(** After an accepted submission, the detail page of the key the row was
    given shows that row: the values submitted, and the display lists made
    from its ingredients and instructions.  (Were the key beyond 64 bits,
    the request for it would end in the driver's exception.) *)
Theorem submitted_recipe_has_detail_page rel e n c p ck sv ing ins col t :
  serve rel e (GET_recipe (next_rowid t))
    (snd (get_db (add_recipe_submit Accepted n c p ck sv ing ins col) t))
  = (if int64 (next_rowid t) then
       TemplateResponse "recipe_detail.html"
         (detail_context
            (mkRecipe (Some (next_rowid t)) n c p ck sv ing ins col)
            (PyStr.split_strip "," ing) (PyStr.split_strip "." ins))
     else InternalServerError,
     t ++ [mkRecipe (Some (next_rowid t)) n c p ck sv ing ins col]).
Proof.
  rewrite submit_accepted. cbn [snd]. rewrite serve_recipe.
  rewrite find_snoc, find_next_rowid.
  unfold id_eq at 1. cbn [id]. now rewrite Z.eqb_refl.
Qed.

(** An accepted submission changes the detail page of no other
    identifier: pages that existed show what they showed, identifiers that
    were not found are still not found. *)
Theorem submit_keeps_detail_pages rel e n c p ck sv ing ins col t recipe_id :
  recipe_id <> next_rowid t ->
  fst (serve rel e (GET_recipe recipe_id)
         (snd (get_db (add_recipe_submit Accepted n c p ck sv ing ins col)
                 t)))
  = fst (serve rel e (GET_recipe recipe_id) t).
Proof.
  intros Hne. rewrite submit_accepted. cbn [snd].
  rewrite !serve_recipe. cbn [fst]. rewrite find_snoc.
  destruct (int64 recipe_id); [|reflexivity].
  destruct (find (id_eq recipe_id) t); [reflexivity|].
  unfold id_eq. cbn [id].
  destruct (Z.eqb_spec (next_rowid t) recipe_id); [congruence|reflexivity].
Qed.

Lemma submit_keeps_detail_pages_witness :
  fst (serve Binding.empty_is_missing Accepted (GET_recipe 4)
         (snd (get_db (add_recipe_submit Accepted "Miso Soup" "Japanese"
                         "5 min" "10 min" "2" "Dashi" "Heat." "#112233")
                 demo_rows)))
  = fst (serve Binding.empty_is_missing Accepted (GET_recipe 4) demo_rows).
Proof.
  apply (submit_keeps_detail_pages Binding.empty_is_missing Accepted
           "Miso Soup" "Japanese" "5 min" "10 min" "2" "Dashi" "Heat."
           "#112233" demo_rows 4).
  discriminate.
Defined.

(** No request removes or alters a row: the table after a request is the
    table before it, followed by at most one new row, and a row is added
    only by a submission the engine accepted. *)
Theorem requests_only_append rel e req t :
  exists added,
    snd (serve rel e req t) = t ++ added
    /\ List.length added <= 1
    /\ (added <> [] -> e = Accepted /\ exists form, req = POST_add_recipe form).
Proof.
  assert (Hsame : snd (serve rel e req t) = t ->
                  exists added,
                    snd (serve rel e req t) = t ++ added
                    /\ List.length added <= 1
                    /\ (added <> [] ->
                        e = Accepted
                        /\ exists form, req = POST_add_recipe form)).
  { intros ->. exists []. rewrite app_nil_r.
    split; [reflexivity|]. split; [auto|]. intros H. now elim H. }
  destruct req as [| |recipe_id| |form|q].
  - now apply Hsame.
  - apply Hsame. now rewrite serve_home.
  - apply Hsame. now rewrite serve_recipe.
  - now apply Hsame.
  - destruct (serve_submit_cases rel e form t)
      as [(_ & _ & Hs) | [(-> & _ & row & Hs) | (_ & _ & Hs)]];
      [now apply Hsame| |now apply Hsame].
    exists [row]. split; [exact Hs|]. split; [auto|].
    intros _. split; [reflexivity|now exists form].
  - apply Hsame. apply serve_search_store.
Qed.

End InsertLookup.

(* ===================================================================== *)
(** ** What holds of every table the program arrives at *)
(* ===================================================================== *)

Section Reachable.
Import Orm App.

Lemma increasing_keys t : forall bound,
  increasing bound t ->
  Forall (fun r => exists k, id r = Some k /\ (bound < k)%Z) t
  /\ NoDup (map id t).
Proof.
  induction t as [|r t IH]; intros bound Hinc; simpl.
  - split; constructor.
  - destruct Hinc as (k & Hk & Hlt & Hinc).
    destruct (IH k Hinc) as [Hall Hnd]. split.
    + constructor; [now exists k|].
      apply Forall_forall. intros x Hx.
      destruct (proj1 (Forall_forall _ _) Hall x Hx) as (kx & Hkx & Hgt).
      exists kx. split; [exact Hkx|lia].
    + constructor; [|exact Hnd].
      intros Hin. apply in_map_iff in Hin as (x & Hx & Hin).
      destruct (proj1 (Forall_forall _ _) Hall x Hin) as (kx & Hkx & Hgt).
      rewrite Hk, Hkx in Hx. injection Hx as ->. lia.
Qed.

Lemma reachable_well_formed rel t : reachable rel t -> well_formed t.
Proof.
  induction 1 as [|e t _ IH|e req t _ IH].
  - exact I.
  - now apply on_startup_well_formed.
  - now apply serve_well_formed.
Qed.

Lemma nodup_map_inj {A B} (f : A -> B) (l : list A) a b :
  NoDup (map f l) -> In a l -> In b l -> f a = f b -> a = b.
Proof.
  induction l as [|x l IH]; simpl; [tauto|].
  intros Hnd Ha Hb Hf. inversion Hnd as [|? ? Hx Hl]; subst.
  destruct Ha as [<-|Ha], Hb as [<-|Hb]; auto.
  - elim Hx. rewrite Hf. now apply in_map.
  - elim Hx. rewrite <- Hf. now apply in_map.
Qed.

(** In every table the program arrives at, each row has a primary key, the
    keys are positive, no two rows share one, and they increase along the
    table. *)
Theorem reachable_keys rel t :
  reachable rel t ->
  Forall (fun r => exists k, id r = Some k /\ (0 < k)%Z) t
  /\ NoDup (map id t)
  /\ well_formed t.
Proof.
  intros H. apply reachable_well_formed in H.
  destruct (increasing_keys t 0%Z H) as [Hall Hnd]. auto.
Qed.

Lemma demo_rows_reachable rel : reachable rel demo_rows.
Proof. exact (reachable_startup rel Accepted [] (reachable_created rel)). Defined.

Lemma reachable_keys_witness :
  Forall (fun r => exists k, id r = Some k /\ (0 < k)%Z) demo_rows
  /\ NoDup (map id demo_rows)
  /\ well_formed demo_rows.
Proof.
  exact (reachable_keys Binding.empty_is_missing demo_rows
           (demo_rows_reachable Binding.empty_is_missing)).
Defined.

(** In such a table the detail page of an identifier shows the one row
    that carries it.  (Were the identifier beyond 64 bits, the request
    would end in the driver's exception.) *)
Theorem detail_shows_the_row rel e t recipe_id r :
  reachable rel t -> In r t -> id r = Some recipe_id ->
  serve rel e (GET_recipe recipe_id) t
  = (if int64 recipe_id then
       TemplateResponse "recipe_detail.html"
         (detail_context r (PyStr.split_strip "," (ingredients r))
            (PyStr.split_strip "." (instructions r)))
     else InternalServerError, t).
Proof.
  intros Hreach Hin Hid. rewrite serve_recipe.
  destruct (int64 recipe_id); [|reflexivity].
  apply reachable_well_formed in Hreach.
  destruct (increasing_keys t 0%Z Hreach) as [_ Hnd].
  destruct (find (id_eq recipe_id) t) as [r'|] eqn:Hfind.
  - apply find_some in Hfind as [Hin' Hid']. apply id_eq_true in Hid'.
    assert (r' = r) as ->; [|reflexivity].
    apply (nodup_map_inj id t); auto. congruence.
  - apply (proj1 (find_none_iff _ _)) with (x := r) in Hfind; [|exact Hin].
    apply id_eq_true in Hid. congruence.
Qed.

Lemma detail_shows_the_row_witness :
  fst (serve Binding.empty_is_missing Accepted (GET_recipe 4) demo_rows)
  = TemplateResponse "recipe_detail.html"
      (detail_context (with_id 4 Sample.sushi)
         ["Sushi Rice"; "Nori"; "Fish"; "Avocado"; "Cucumber"]
         ["1"; "Cook sushi rice"; "2"; "Prepare fillings"; "3";
          "Roll sushi"]).
Proof.
  rewrite (detail_shows_the_row Binding.empty_is_missing Accepted demo_rows 4
             (with_id 4 Sample.sushi)
             (demo_rows_reachable Binding.empty_is_missing)).
  - reflexivity.
  - simpl. tauto.
  - reflexivity.
Defined.

(** What binding guarantees of the values it hands to the endpoint: the
    colour is never empty, and under a release that reports an empty
    required field as missing no value is. *)
Lemma bind_form_values {A} rel form
  (endpoint : string -> string -> string -> string -> string -> string ->
              string -> string -> A) x :
  Binding.bind_form rel form endpoint = inr x ->
  exists n c p ck sv ing ins col,
    x = endpoint n c p ck sv ing ins col
    /\ col <> EmptyString
    /\ (rel = Binding.empty_is_missing ->
        nonblank (mkRecipe None n c p ck sv ing ins col)).
Proof.
  unfold Binding.bind_form. intros H.
  repeat match type of H with
         | context [match Binding.required_field rel ?k form
                    with _ => _ end] =>
             let E := fresh "E" in
             destruct (Binding.required_field rel k form) eqn:E
         end; try discriminate.
  injection H as <-.
  do 8 eexists. split; [reflexivity|].
  assert (Hcol : Binding.optional "#cccccc" "image_color" form
                 <> EmptyString).
  { unfold Binding.optional.
    destruct (Binding.field "image_color" form) as [v|] eqn:Ecol;
      [|discriminate].
    now apply field_some in Ecol. }
  split; [exact Hcol|].
  intros ->. cbn [Binding.required_field] in *.
  repeat match goal with
         | E : Binding.field _ form = Some _ |- _ =>
             apply field_some in E; destruct E as [_ E]
         end.
  unfold nonblank. cbn [name cuisine prep_time cook_time servings ingredients
                        instructions image_color].
  repeat (split; [assumption|]). exact Hcol.
Qed.

Lemma demo_rows_filled_in rel : Forall (filled_in rel) demo_rows.
Proof.
  repeat constructor; discriminate.
Qed.

Lemma on_startup_filled_in rel e t :
  Forall (filled_in rel) t -> Forall (filled_in rel) (snd (on_startup e t)).
Proof.
  intros H. destruct t as [|r t].
  - destruct e; simpl; auto. exact (demo_rows_filled_in rel).
  - unfold on_startup. now rewrite seed_nonempty.
Qed.

Lemma serve_filled_in rel e req t :
  Forall (filled_in rel) t -> Forall (filled_in rel) (snd (serve rel e req t)).
Proof.
  intros H. destruct req as [| |recipe_id| |form|q].
  - exact H.
  - now rewrite serve_home.
  - now rewrite serve_recipe.
  - exact H.
  - unfold serve.
    destruct (Binding.bind_form rel form (add_recipe_submit e))
      as [m|x] eqn:Hb; [exact H|].
    apply bind_form_values in Hb
      as (n & c & p & ck & sv & ing & ins & col & -> & Hcol & Hnb).
    pose proof (submit_store e n c p ck sv ing ins col t) as Hs.
    destruct (get_db _ t) as [o t']. cbn [snd] in *. subst t'.
    destruct e; auto.
    unfold insert_row. apply Forall_app. split; [exact H|].
    constructor; [|constructor]. split; [exact Hcol|exact Hnb].
  - now rewrite serve_search_store.
Qed.

(** In every table the program arrives at, no row has an empty colour: the
    demo rows have one and an empty colour submitted is replaced by the
    default.  Under a release of the framework that reports an empty
    required field as missing, no row has an empty name, cuisine, time,
    servings, ingredients or instructions either. *)
Theorem reachable_rows_nonblank rel t :
  reachable rel t -> Forall (filled_in rel) t.
Proof.
  induction 1 as [|e t _ IH|e req t _ IH].
  - constructor.
  - now apply on_startup_filled_in.
  - now apply serve_filled_in.
Qed.

Lemma reachable_rows_nonblank_witness :
  Forall (filled_in Binding.empty_is_missing)
    (snd (serve Binding.empty_is_missing Accepted
            (POST_add_recipe Sample.form_with_empty_color) demo_rows)).
Proof.
  apply reachable_rows_nonblank.
  exact (reachable_serve Binding.empty_is_missing Accepted
           (POST_add_recipe Sample.form_with_empty_color) demo_rows
           (demo_rows_reachable Binding.empty_is_missing)).
Defined.

End Reachable.

(* ===================================================================== *)
(** ** More on search and seeding *)
(* ===================================================================== *)

Section SearchRequests.
Import Orm App.

Lemma serve_search rel e q t :
  serve rel e (GET_search (Some q)) t
  = (if PyStr.truthy q then
       if PyStr.too_complex ("%" ++ q ++ "%") then
         match t with
         | [] => TemplateResponse "search_results.html" (search_context [] q)
         | _ :: _ => InternalServerError
         end
       else
         TemplateResponse "search_results.html"
           (search_context (filter (search_filter ("%" ++ q ++ "%")) t) q)
     else TemplateResponse "search_results.html" (search_context [] q), t).
Proof.
  unfold serve, get_db. destruct q as [|c q]; [reflexivity|].
  rewrite search_recipes_run. cbn [PyStr.truthy SessionLocal store].
  destruct (PyStr.too_complex ("%" ++ String c q ++ "%")); [|reflexivity].
  now destruct t.
Qed.

Lemma lower_empty q q' :
  PyStr.lower q = PyStr.lower q' -> PyStr.truthy q = PyStr.truthy q'.
Proof. destruct q, q'; simpl; congruence. Qed.

(** The rows a search returns do not depend on the case of the ASCII
    letters in the query. *)
Theorem search_ignores_query_case rel e q q' t :
  PyStr.lower q = PyStr.lower q' ->
  found_by (fst (serve rel e (GET_search (Some q)) t))
  = found_by (fst (serve rel e (GET_search (Some q')) t)).
Proof.
  intros H. rewrite !serve_search. cbn [fst].
  rewrite (lower_empty q q' H), (too_complex_query_case q q' H).
  destruct (PyStr.truthy q'); [|reflexivity].
  destruct (PyStr.too_complex ("%" ++ q' ++ "%")).
  - now destruct t.
  - cbn [found_by]. apply filter_ext. intros r. unfold search_filter.
    now rewrite !(ilike_query_case q q' _ H).
Qed.

Lemma search_ignores_query_case_witness :
  found_by (fst (serve Binding.empty_is_missing Accepted
                   (GET_search (Some "pad thai")) demo_rows))
  = found_by (fst (serve Binding.empty_is_missing Accepted
                     (GET_search (Some "PAD Thai")) demo_rows)).
Proof.
  apply (search_ignores_query_case Binding.empty_is_missing Accepted
           "pad thai" "PAD Thai" demo_rows).
  reflexivity.
Defined.

(** A non-empty query made of [%] only, short enough for its pattern to
    stay within the engine's 50000 bytes, returns the whole table. *)
Theorem search_percent_lists_everything rel e q t :
  q <> EmptyString -> PyStr.every (Ascii.eqb PyStr.percent) q = true ->
  PyStr.too_complex ("%" ++ q ++ "%") = false ->
  fst (serve rel e (GET_search (Some q)) t)
  = TemplateResponse "search_results.html" (search_context t q).
Proof.
  intros Hne Hq Hlen. rewrite serve_search, Hlen. cbn [fst].
  destruct q as [|c q]; [now elim Hne|]. cbn [PyStr.truthy].
  do 2 f_equal.
  assert (Hall : forall r,
             search_filter ("%" ++ String c q ++ "%") r = true).
  { intros r. unfold search_filter.
    now rewrite (ilike_all_percent _ (name r) Hq). }
  induction t as [|r t IH]; cbn [filter]; [reflexivity|].
  now rewrite Hall, IH.
Qed.

Lemma search_percent_lists_everything_witness :
  fst (serve Binding.empty_is_missing Accepted (GET_search (Some "%"))
         demo_rows)
  = TemplateResponse "search_results.html" (search_context demo_rows "%").
Proof.
  apply (search_percent_lists_everything Binding.empty_is_missing Accepted
           "%" demo_rows).
  - discriminate.
  - reflexivity.
  - reflexivity.
Defined.

(** After an accepted submission, a search for a text without wildcard
    and without NUL, short enough for its pattern to stay within the
    engine's 50000 bytes, that occurs in the name, the ingredients or the
    cuisine submitted (each read as far as its first NUL) returns the new
    row. *)
Theorem submitted_recipe_is_found rel e q n c p ck sv ing ins col t :
  q <> EmptyString -> PyStr.literal q = true -> PyStr.nul_free q = true ->
  PyStr.too_complex ("%" ++ q ++ "%") = false ->
  PyStr.ci_substring q (PyStr.c_string n)
  \/ PyStr.ci_substring q (PyStr.c_string ing)
  \/ PyStr.ci_substring q (PyStr.c_string c) ->
  In (mkRecipe (Some (next_rowid t)) n c p ck sv ing ins col)
    (found_by
       (fst (serve rel e (GET_search (Some q))
               (snd (get_db
                       (add_recipe_submit Accepted n c p ck sv ing ins col)
                       t))))).
Proof.
  intros Hne Hq Hn Hlen Hocc. rewrite submit_accepted, serve_search, Hlen.
  cbn [fst snd].
  destruct q as [|a q]; [now elim Hne|]. cbn [PyStr.truthy found_by].
  apply filter_In. split; [apply in_or_app; right; now left|].
  apply (search_filter_literal (String a q) _ Hq Hn). exact Hocc.
Qed.

Lemma submitted_recipe_is_found_witness :
  In (mkRecipe (Some 9%Z) "Miso Soup" "Japanese" "5 min" "10 min" "2"
        "Dashi, Miso" "Heat." "#112233")
    (found_by
       (fst (serve Binding.empty_is_missing Accepted
               (GET_search (Some "miso soup"))
               (snd (get_db
                       (add_recipe_submit Accepted "Miso Soup" "Japanese"
                          "5 min" "10 min" "2" "Dashi, Miso" "Heat."
                          "#112233")
                       demo_rows))))).
Proof.
  apply (submitted_recipe_is_found Binding.empty_is_missing Accepted
           "miso soup" "Miso Soup"
           "Japanese" "5 min" "10 min" "2" "Dashi, Miso" "Heat." "#112233"
           demo_rows).
  - discriminate.
  - reflexivity.
  - reflexivity.
  - reflexivity.
  - left. apply ci_substringb_spec. reflexivity.
Defined.

(** When the flush of the demo rows fails, [seed_database] does not catch
    the exception: start-up ends with it, and the table is still empty,
    none of the eight rows written. *)
Theorem seeding_failure_writes_nothing e :
  e <> Accepted ->
  exists exc,
    on_startup e [] = (Raised exc, [])
    /\ (e = Rejected -> exc = IntegrityError)
    /\ (forall d, e = Failed d -> exc = OtherError d).
Proof.
  intros He. destruct e as [| |d]; [now elim He| |].
  - exists IntegrityError. repeat split. discriminate.
  - exists (OtherError d). repeat split; [discriminate|].
    now intros d' [= <-].
Qed.

Lemma seeding_failure_writes_nothing_witness :
  exists exc,
    on_startup Rejected [] = (Raised exc, [])
    /\ (Rejected = Rejected -> exc = IntegrityError)
    /\ (forall d, Rejected = Failed d -> exc = OtherError d).
Proof.
  apply (seeding_failure_writes_nothing Rejected). discriminate.
Defined.

End SearchRequests.
